(** * barqing: a poller that relays new chat messages as notifications

    Shallow embedding of [barqing.py] and the properties of its refresher
    (the per-user polling loop) and of its command handler.

    The program is a set of cooperatively scheduled coroutines.  A coroutine
    runs without interruption between two [await]s, so each stretch is a
    function on the state it touches.  The answers of the outside world (the
    HTTP replies of the chat API, the text messages of the users) are the
    inputs of these functions. *)

From Stdlib Require Import ZArith String Ascii List DecimalString.
From Stdlib Require DecimalPos DecimalZ.
From stdpp Require Import base decidable option list strings gmap.

Local Open Scope string_scope.
Local Open Scope Z_scope.

Set Warnings "-register-all".

(** ** Python values that come out of a JSON body *)

(** Scalars: the JSON values that Python can hash, and so use as a key of a
    dict.  JSON booleans and non-integral numbers are not part of the model
    (the two queries of the program select identifiers, names and message
    texts only). *)
Inductive atom :=
  | ANone
  | AStr (s : string)
  | AInt (n : Z).

Inductive json :=
  | JAtom (a : atom)
  | JList (l : list json)
  | JDict (items : gmap string json).

Definition JNone : json := JAtom ANone.
Definition JStr (s : string) : json := JAtom (AStr s).

(** A dict written as the list of its items. *)
Definition obj (items : list (string * json)) : json := JDict (list_to_map items).

#[global] Instance atom_eq_dec : EqDecision atom.
Proof. solve_decision. Defined.

Definition atom_enc (a : atom) : option (string + Z) :=
  match a with
  | ANone => None
  | AStr s => Some (inl s)
  | AInt n => Some (inr n)
  end.

Definition atom_dec (x : option (string + Z)) : atom :=
  match x with
  | None => ANone
  | Some (inl s) => AStr s
  | Some (inr n) => AInt n
  end.

#[global] Instance atom_countable : Countable atom.
Proof. apply (inj_countable' atom_enc atom_dec). by intros []. Defined.

(** Python's [==] on these values is equality of the values: a list is equal
    to a list with equal elements in the same order, a dict to a dict with
    the same keys and equal values.  [decide (a = b)] computes it. *)
Fixpoint json_eq_dec (a b : json) {struct a} : Decision (a = b).
Proof.
  refine
    (match a, b with
     | JAtom x, JAtom y => cast_if (decide (x = y))
     | JList xs, JList ys => cast_if (@list_eq_dec _ json_eq_dec xs ys)
     | JDict xs, JDict ys => cast_if (@gmap_eq_dec _ _ _ _ json_eq_dec xs ys)
     | _, _ => right _
     end); congruence.
Defined.
#[global] Existing Instance json_eq_dec.

(** The exceptions the program can meet. *)
Inductive exn :=
  | KeyError
  | TypeError
  | IndexError
  | AttributeError
  | ClientError.

#[global] Instance exn_eq_dec : EqDecision exn.
Proof. solve_decision. Defined.

Inductive result (A : Type) :=
  | Ok (x : A)
  | Raise (e : exn).
Arguments Ok {A} x.
Arguments Raise {A} e.

(** [v[k]] for a string [k]: only a dict can be subscripted by a string. *)
Definition getitem (v : json) (k : string) : result json :=
  match v with
  | JDict items =>
      match items !! k with
      | Some x => Ok x
      | None => Raise KeyError
      end
  | _ => Raise TypeError
  end.

Fixpoint chars (s : string) : list json :=
  match s with
  | EmptyString => []
  | String a s' => JStr (String a EmptyString) :: chars s'
  end.

(** [for x in v]: the elements of a list, the keys of a dict, the characters
    of a string. *)
Definition iter (v : json) : result (list json) :=
  match v with
  | JList l => Ok l
  | JDict items => Ok (map (fun kv => JStr (fst kv)) (map_to_list items))
  | JAtom (AStr s) => Ok (chars s)
  | JAtom _ => Raise TypeError
  end.

(** [hash(v)], as far as a dict needs it: lists and dicts are unhashable. *)
Definition hashable (v : json) : result atom :=
  match v with
  | JAtom a => Ok a
  | _ => Raise TypeError
  end.

(** Truth value of [v] in a condition. *)
Definition truthy (v : json) : bool :=
  match v with
  | JAtom ANone => false
  | JAtom (AStr s) => negb (bool_decide (s = ""))
  | JAtom (AInt n) => negb (n =? 0)
  | JList l => negb (bool_decide (l = []))
  | JDict items => negb (bool_decide (items = ∅))
  end.

(** [isinstance(v, dict)] *)
Definition is_dict (v : json) : bool :=
  match v with
  | JDict _ => true
  | _ => false
  end.

(** ** The data model *)

Definition API_URL : string := "https://api.barq.app/graphql".
Definition NEWMSG : Z := 0.

Module Chat.
Record t := mk { id : atom; last_msg : json }.
End Chat.

Module RefresherData.
Record t := mk {
  chats : gmap atom Chat.t;
  auth : string;
  running : bool;
  update_data : Z;
  self_id : json
}.

Definition set_chats (d : t) (c : gmap atom Chat.t) : t :=
  mk c (auth d) (running d) (update_data d) (self_id d).
Definition set_running (d : t) (b : bool) : t :=
  mk (chats d) (auth d) b (update_data d) (self_id d).
Definition set_self_id (d : t) (v : json) : t :=
  mk (chats d) (auth d) (running d) (update_data d) v.
End RefresherData.

(** An entry of the update queue: [(update_data, NEWMSG, (sender, content))]. *)
Definition update : Type := Z * Z * (json * json).

(** What a [print] call writes. *)
Inductive printed :=
  | PrintData (d : RefresherData.t)
  | PrintReply (status : Z) (d : json).

(** The outcome of one [session.post]: the request fails, or a response
    arrives with a status, a body that [r.json()] parses or not, and the
    body as text. *)
Inductive reply :=
  | Failed
  | Response (status : Z) (parsed : option json) (text : string).

(** ** The refresher *)

(** What a running refresher reads and writes: its [data], the updates it
    has put on the queue it shares with the bot (oldest first), the standard
    output, and the queries it has posted to the API (oldest first). *)
Record world := World {
  data : RefresherData.t;
  update_queue : list update;
  stdout : list printed;
  posted : list string
}.

(** Statements of the refresher: they change the world and return a value or
    raise.  What was written before an exception stays written. *)
Definition M (A : Type) : Type := world -> world * result A.

Definition ret {A} (x : A) : M A := fun w => (w, Ok x).
Definition raise {A} (e : exn) : M A := fun w => (w, Raise e).
Definition bind {A B} (m : M A) (k : A -> M B) : M B :=
  fun w =>
    match m w with
    | (w', Ok x) => k x w'
    | (w', Raise e) => (w', Raise e)
    end.
Definition lift {A} (r : result A) : M A := fun w => (w, r).
Definition gets {A} (f : RefresherData.t -> A) : M A := fun w => (w, Ok (f (data w))).
Definition modify (f : RefresherData.t -> RefresherData.t) : M unit :=
  fun w => (World (f (data w)) (update_queue w) (stdout w) (posted w), Ok tt).
Definition queue_put (u : update) : M unit :=
  fun w => (World (data w) (update_queue w ++ [u]) (stdout w) (posted w), Ok tt).
Definition print (p : printed) : M unit :=
  fun w => (World (data w) (update_queue w) (stdout w ++ [p]) (posted w), Ok tt).
Definition post (query : string) : M unit :=
  fun w => (World (data w) (update_queue w) (stdout w) (posted w ++ [query]), Ok tt).

Notation "'do' x <- m ; k" := (bind m (fun x => k))
  (at level 10, x name, m at level 100, k at level 200, only parsing).
Notation "'do' ' p <- m ; k" := (bind m (fun p => k))
  (at level 10, p pattern, m at level 100, k at level 200, only parsing).
Notation "'exec' m ; k" := (bind m (fun _ => k))
  (at level 10, m at level 100, k at level 200, only parsing).

(** [for x in l: body x] *)
Fixpoint for_each {A} (l : list A) (body : A -> M unit) : M unit :=
  match l with
  | [] => ret tt
  | x :: l' => exec body x; for_each l' body
  end.

Module Refresher.

Definition identity_query : string := "{ user { profile { id } } }".
Definition chats_query : string :=
  "{ chats { id lastMessage { profile { id displayName } content id } } }".

(** The data of a response: [r.json()], or [r.text()] when the body does
    not parse. *)
Definition api_data (parsed : option json) (text : string) : json :=
  match parsed with Some j => j | None => JStr text end.

(** [_api]: post the query and return the status and the data of the
    response.  A request that fails raises out of [session.post]. *)
Definition _api (query : string) (r : reply) : M (Z * json) :=
  exec post query;
  match r with
  | Failed => raise ClientError
  | Response status parsed text => ret (status, api_data parsed text)
  end.

(** The body of the loop of [_do_refresh], for one reported chat. *)
Definition refresh_chat (chat : json) : M unit :=
  do chat_id <- lift (getitem chat "id");
  do msg <- lift (getitem chat "lastMessage");
  do msg_id <- lift (getitem msg "id");
  do content <- lift (getitem msg "content");
  do k <- lift (hashable chat_id);
  do seen <- gets (fun d => bool_decide (is_Some (RefresherData.chats d !! k)));
  exec (if seen then ret tt
        else modify (fun d =>
               RefresherData.set_chats d
                 (<[k := Chat.mk k msg_id]> (RefresherData.chats d))));
  do last <- gets (fun d => Chat.last_msg <$> RefresherData.chats d !! k);
  match last with
  | None => raise KeyError
  | Some last_msg =>
      if bool_decide (last_msg = msg_id) then ret tt
      else
        exec modify (fun d =>
               RefresherData.set_chats d
                 (alter (fun c => Chat.mk (Chat.id c) msg_id) k (RefresherData.chats d)));
        do profile <- lift (getitem msg "profile");
        do sender <- lift (getitem profile "displayName");
        do profile' <- lift (getitem msg "profile");
        do author <- lift (getitem profile' "id");
        do self <- gets RefresherData.self_id;
        if bool_decide (author = self) then ret tt
        else
          do dest <- gets RefresherData.update_data;
          queue_put (dest, NEWMSG, (sender, content))
  end.

Definition _do_refresh (r : reply) : M unit :=
  do '(status, d) <- _api chats_query r;
  if (status =? 200) && is_dict d then
    do data <- lift (getitem d "data");
    do chats <- lift (getitem data "chats");
    do l <- lift (iter chats);
    for_each l refresh_chat
  else
    print (PrintReply status d).

(** The start of [run], before the loop: the self id is asked for when
    the data has none. *)
Definition resolve_self_id (r : reply) : M unit :=
  do self <- gets RefresherData.self_id;
  if negb (truthy self) then
    do '(status, d) <- _api identity_query r;
    if (status =? 200) && is_dict d then
      do data <- lift (getitem d "data");
      do user <- lift (getitem data "user");
      do profile <- lift (getitem user "profile");
      do v <- lift (getitem profile "id");
      exec modify (fun d => RefresherData.set_self_id d v);
      do d' <- gets (fun d => d);
      print (PrintData d')
    else
      print (PrintReply status d)
  else ret tt.

(** What happens to a refresher while it runs: the timer fires and the API
    answers [r] if asked, or the command handler writes the [running] flag
    of the data they share.  The handler can also run while a cycle waits
    for the answer of the API; the cycle does not read the flag after its
    start, and nothing else writes the data of the refresher, so a cycle is
    taken as one step. *)
Inductive event :=
  | Tick (r : reply)
  | SetRunning (b : bool).

(** One turn of the [while True] loop. *)
Definition tick (r : reply) : M unit :=
  do running <- gets RefresherData.running;
  if running then _do_refresh r else ret tt.

(** The loop of [run] over the events of a finite stretch of time.  An
    exception leaves the loop, and the task of the refresher ends. *)
Fixpoint loop (evs : list event) : M unit :=
  match evs with
  | [] => ret tt
  | Tick r :: evs' => exec tick r; loop evs'
  | SetRunning b :: evs' =>
      exec modify (fun d => RefresherData.set_running d b); loop evs'
  end.

Definition run (ident : reply) (evs : list event) : M unit :=
  exec resolve_self_id ident; loop evs.

End Refresher.

(** ** The bot *)

(** [str.split()]: the words between runs of whitespace (the whitespace of
    ASCII: tab to carriage return, the four separators, the space). *)
Definition is_space (a : ascii) : bool :=
  let n := nat_of_ascii a in
  ((9 <=? n) && (n <=? 13) || (28 <=? n) && (n <=? 32))%nat.

Fixpoint split_from (word : string) (s : string) : list string :=
  match s with
  | EmptyString => if bool_decide (word = "") then [] else [word]
  | String a s' =>
      if is_space a then
        if bool_decide (word = "") then split_from "" s'
        else word :: split_from "" s'
      else split_from (word ++ String a EmptyString) s'
  end.

Definition split (s : string) : list string := split_from "" s.

(** [str(n)] of an integer. *)
Definition str (n : Z) : string := NilZero.string_of_int (Z.to_int n).

Module Message.
(** The two fields of a message that the bot reads: [msg.text] and
    [msg.chat.id]. *)
Record t := mk { text : option string; chat_id : Z }.
End Message.

(** What the shelf holds: the dict stored under ['refreshers'], and the
    data of a refresher (what a login stores under the id of its chat). *)
Inductive shelf_val :=
  | SDict (items : gmap string RefresherData.t)
  | SData (d : RefresherData.t).

Module Bot.

Inductive task :=
  | GetRefresherUpdates
  | SyncDb
  | Run (uid : Z).

(** [_refreshers] maps a chat id to the data of its refresher; all the
    refreshers share [_refresher_queue]. *)
Record t := mk {
  _db : gmap string shelf_val;
  _refreshers : gmap Z RefresherData.t;
  _refresher_queue : list update;
  _tasks : list task
}.

Definition set_refreshers (bot : t) (r : gmap Z RefresherData.t) : t :=
  mk (_db bot) r (_refresher_queue bot) (_tasks bot).

(** [refdata['update_data']]: an instance of a dataclass cannot be
    subscripted. *)
Definition refdata_getitem (refdata : RefresherData.t) (k : string) : result Z :=
  Raise TypeError.

Fixpoint load (vals : list RefresherData.t) (refreshers : gmap Z RefresherData.t)
    : result (gmap Z RefresherData.t) :=
  match vals with
  | [] => Ok refreshers
  | refdata :: vals' =>
      match refdata_getitem refdata "update_data" with
      | Ok k => load vals' (<[k := refdata]> refreshers)
      | Raise e => Raise e
      end
  end.

Definition __init__ (db : gmap string shelf_val) : result t :=
  let db :=
    if bool_decide (is_Some (db !! "refreshers")) then db
    else <["refreshers" := SDict ∅]> db in
  match db !! "refreshers" with
  | None => Raise KeyError
  | Some (SData _) => Raise AttributeError
  | Some (SDict items) =>
      match load (map snd (map_to_list items)) ∅ with
      | Ok refreshers => Ok (mk db refreshers [] [])
      | Raise e => Raise e
      end
  end.

(** The tasks that [run] creates before it waits for [_quit]: the
    dispatcher, the flush of the shelf, and a run for each refresher. *)
Definition run (bot : t) : t :=
  mk (_db bot) (_refreshers bot) (_refresher_queue bot)
     (_tasks bot ++ [GetRefresherUpdates; SyncDb]
                 ++ map (fun kv => Run (fst kv)) (map_to_list (_refreshers bot))).

(** The three commands, each with the replies it sends to the chat. *)
Definition on_start (uid : Z) (bot : t) : t * list string :=
  match _refreshers bot !! uid with
  | Some d =>
      (set_refreshers bot (<[uid := RefresherData.set_running d true]> (_refreshers bot)),
       ["receiving messages"])
  | None => (bot, ["you haven't logged in yet"])
  end.

Definition on_login (uid : Z) (credential : string) (bot : t) : t * list string :=
  match _refreshers bot !! uid with
  | Some _ => (bot, [])
  | None =>
      let data := RefresherData.mk ∅ credential true uid JNone in
      (mk (<[str uid := SData data]> (_db bot))
          (<[uid := data]> (_refreshers bot))
          (_refresher_queue bot)
          (_tasks bot ++ [Run uid]),
       ["receiving messages"])
  end.

Definition on_stop (uid : Z) (bot : t) : t * list string :=
  match _refreshers bot !! uid with
  | Some d =>
      (set_refreshers bot (<[uid := RefresherData.set_running d false]> (_refreshers bot)),
       ["not receiving messages anymore"])
  | None => (bot, ["you haven't logged in yet"])
  end.

(** [_on_message]: the new state of the bot, and the replies sent to the
    chat of the message, or the exception raised. *)
Definition _on_message (bot : t) (msg : Message.t) : t * result (list string) :=
  match Message.text msg with
  | None => (bot, Ok [])
  | Some text =>
      if bool_decide (text = "") then (bot, Ok [])
      else
        let args := split text in
        match args with
        | [] => (bot, Raise IndexError)
        | cmd :: _ =>
            if negb (String.prefix "/" cmd) then (bot, Ok [])
            else
              let uid := Message.chat_id msg in
              let '(bot, out1) :=
                if bool_decide (cmd = "/start") then on_start uid bot
                else (bot, []) in
              let '(bot, out2) :=
                match args with
                | [_; credential] =>
                    if bool_decide (cmd = "/login") then on_login uid credential bot
                    else (bot, [])
                | _ => (bot, [])
                end in
              let '(bot, out3) :=
                if bool_decide (cmd = "/stop") then on_stop uid bot
                else (bot, []) in
              (bot, Ok (out1 ++ out2 ++ out3)%list)
        end
  end.

(** [str(v)], as an f-string prints a value; [repr] stands for the [repr]
    of a list or of a dict. *)
Definition py_str (repr : json -> string) (v : json) : string :=
  match v with
  | JAtom ANone => "None"
  | JAtom (AStr s) => s
  | JAtom (AInt n) => str n
  | _ => repr v
  end.

Definition newline : string := String (ascii_of_nat 10) EmptyString.

(** [_send_user_update]: the messages it has the client send, each with the
    chat it goes to. *)
Definition _send_user_update (repr : json -> string) (uid upd_type : Z)
    (args : json * json) : list (Z * string) :=
  if upd_type =? NEWMSG then
    let '(sender, content) := args in
    [(uid, py_str repr sender ++ ":" ++ newline ++ newline ++ py_str repr content)]
  else [].

(** The loop of [_get_refresher_updates] over a stretch of time: each turn
    takes the oldest update off the queue and has it sent; [sent] tells, for
    each turn in order, whether the sending returned or raised, and what it
    raises is dropped.  With an empty queue the loop waits.  The result is
    the bot and the messages that went out. *)
Fixpoint _get_refresher_updates (repr : json -> string) (sent : list bool) (bot : t)
    : t * list (Z * string) :=
  match sent, _refresher_queue bot with
  | ok :: sent', (uid, upd_type, args) :: queue =>
      let out := if ok then _send_user_update repr uid upd_type args else [] in
      let '(bot', out') :=
        _get_refresher_updates repr sent'
          (mk (_db bot) (_refreshers bot) queue (_tasks bot)) in
      (bot', (out ++ out')%list)
  | _, _ => (bot, [])
  end.

End Bot.

(** ** What a refresh cycle is asked to look at *)

(** The reply of the chats query lists the chats [cs]: status 200 and a
    JSON body [d] with [d['data']['chats']] the list [cs]. *)
Definition reports (r : reply) (cs : list json) : Prop :=
  exists d text data,
    r = Response 200 (Some d) text /\
    getitem d "data" = Ok data /\
    getitem data "chats" = Ok (JList cs).

(** The entry [chat] of the reply is about the conversation [cid]. *)
Definition about (cid : atom) (chat : json) : Prop :=
  getitem chat "id" = Ok (JAtom cid).

#[global] Instance about_dec cid chat : Decision (about cid chat).
Proof. unfold about. destruct (getitem chat "id") as [[a| |]|]; solve_decision. Defined.

(** The entry [chat] gives [msg] as the latest message of [cid], with the
    id [m] and the text [content]. *)
Definition latest (chat : json) (cid : atom) (msg m content : json) : Prop :=
  about cid chat /\
  getitem chat "lastMessage" = Ok msg /\
  getitem msg "id" = Ok m /\
  getitem msg "content" = Ok content.


(** The world in which the loop of [_do_refresh] starts. *)
Definition asked (w : world) : world :=
  World (data w) (update_queue w) (stdout w) (posted w ++ [Refresher.chats_query]).

(** The list that the loop of [_do_refresh] goes through ([[]] when the
    loop is not reached). *)
Definition iterated (r : reply) : list json :=
  match r with
  | Failed => []
  | Response status parsed text =>
      let d := Refresher.api_data parsed text in
      if (status =? 200) && is_dict d then
        match getitem d "data" with
        | Ok data =>
            match getitem data "chats" with
            | Ok chats => match iter chats with Ok l => l | Raise _ => [] end
            | Raise _ => []
            end
        | Raise _ => []
        end
      else []
  end.

(** The updates that the loop over [cs], started in [w], puts on the queue
    in its turns for the entries that [sel] selects. *)
Fixpoint enqueued_by (sel : json -> bool) (cs : list json) (w : world) : list update :=
  match cs with
  | [] => []
  | c :: cs' =>
      let '(w', res) := Refresher.refresh_chat c w in
      ((if sel c then drop (length (update_queue w)) (update_queue w') else []) ++
       match res with
       | Ok _ => enqueued_by sel cs' w'
       | Raise _ => []
       end)%list
  end.

(** The notifications that the cycle [_do_refresh r], started in [w],
    enqueues for the conversation [cid]. *)
Definition notified (cid : atom) (r : reply) (w : world) : list update :=
  enqueued_by (fun c => bool_decide (about cid c)) (iterated r) (asked w).

(** The same over the events of a stretch of [Refresher.loop]. *)
Fixpoint loop_notified (cid : atom) (evs : list Refresher.event) (w : world) : list update :=
  match evs with
  | [] => []
  | Refresher.Tick r :: evs' =>
      ((if RefresherData.running (data w) then notified cid r w else []) ++
       match Refresher.tick r w with
       | (w', Ok _) => loop_notified cid evs' w'
       | (_, Raise _) => []
       end)%list
  | Refresher.SetRunning b :: evs' =>
      loop_notified cid evs'
        (World (RefresherData.set_running (data w) b) (update_queue w) (stdout w) (posted w))
  end.

(** The baseline of the conversation [cid]: the id of the last message
    seen. *)
Definition baseline (w : world) (cid : atom) : option json :=
  Chat.last_msg <$> RefresherData.chats (data w) !! cid.

(** The entry [chat] does not give a latest message with another id than
    [m]. *)
Definition gives (chat : json) (m : json) : Prop :=
  forall msg m',
    getitem chat "lastMessage" = Ok msg -> getitem msg "id" = Ok m' -> m' = m.

(** The reply [r] gives [m] for [cid] wherever it speaks of [cid]: the
    message [m] is still the latest of the conversation. *)
Definition still_latest (cid : atom) (m : json) (r : reply) : Prop :=
  Forall (fun chat => about cid chat -> gives chat m) (iterated r).

(** Nothing of the session but its chats differs between [w] and [w'], and
    nothing was printed or posted. *)
Definition same_session (w w' : world) : Prop :=
  RefresherData.auth (data w') = RefresherData.auth (data w) /\
  RefresherData.running (data w') = RefresherData.running (data w) /\
  RefresherData.update_data (data w') = RefresherData.update_data (data w) /\
  RefresherData.self_id (data w') = RefresherData.self_id (data w) /\
  stdout w' = stdout w /\
  posted w' = posted w.

(** ** The queries of a run *)



(** ** A session and some replies, to run the definitions on *)

Definition message (id author name content : string) : json :=
  obj [("profile", obj [("id", JStr author); ("displayName", JStr name)]);
       ("content", JStr content);
       ("id", JStr id)].

Definition chat_entry (id : string) (msg : json) : json :=
  obj [("id", JStr id); ("lastMessage", msg)].

Definition chats_reply (cs : list json) : reply :=
  Response 200 (Some (obj [("data", obj [("chats", JList cs)])])) "".

Definition identity_reply (id : string) : reply :=
  Response 200
    (Some (obj [("data", obj [("user", obj [("profile", obj [("id", JStr id)])])])])) "".

(** Alice is logged in from the chat 1001, her self id is resolved, and she
    has seen the message [m1] of the conversation [c1]. *)
Definition alice : RefresherData.t :=
  RefresherData.mk {[AStr "c1" := Chat.mk (AStr "c1") (JStr "m1")]}
                   "alice-token" true 1001 (JStr "u-alice").

Definition alice_world : world := World alice [] [] [].

(** Bob has just logged in from the chat 42. *)
Definition bob : RefresherData.t := RefresherData.mk ∅ "bob-token" true 42 JNone.

Definition bob_world : world := World bob [] [] [].

Definition c0_carol : json := chat_entry "c0" (message "m9" "u-carol" "Carol" "hello").
Definition c1_bob : json := chat_entry "c1" (message "m2" "u-bob" "Bob" "hi").
Definition c1_old : json := chat_entry "c1" (message "m1" "u-bob" "Bob" "first").
Definition c2_dan : json := chat_entry "c2" (message "m5" "u-dan" "Dan" "ping").

(** The bot as it starts on an empty shelf, and with the session of Alice. *)
Definition fresh_bot : Bot.t := Bot.mk {["refreshers" := SDict ∅]} ∅ [] [].

Definition alice_bot : Bot.t :=
  Bot.mk (<["1001" := SData alice]> {["refreshers" := SDict ∅]})
         {[1001 := alice]} [] [Bot.Run 1001].

Definition login_bob : Message.t := Message.mk (Some "/login bob-token") 42.
Definition stop_alice : Message.t := Message.mk (Some "/stop") 1001.
Definition stop_bob : Message.t := Message.mk (Some "/stop") 42.


(** ** More observations of a refresher *)

(** The stored chats are filed under their own id. *)
Definition chats_wf (d : RefresherData.t) : Prop :=
  forall k c, RefresherData.chats d !! k = Some c -> Chat.id c = k.

(** What was put on the queue between [w] and [w']. *)
Definition enqueued (w w' : world) : list update :=
  drop (length (update_queue w)) (update_queue w').



(** [d['data']['user']['profile']['id']] *)
Definition profile_id (d : json) : result json :=
  match getitem d "data" with
  | Ok x =>
      match getitem x "user" with
      | Ok user =>
          match getitem user "profile" with
          | Ok profile => getitem profile "id"
          | Raise e => Raise e
          end
      | Raise e => Raise e
      end
  | Raise e => Raise e
  end.

(** [w'] comes after [w] in the life of a refresher: the credential and the
    destination are the same, no chat is forgotten, the chats stay filed
    under their id, and the queue has grown by new-message updates for the
    destination of the session. *)
Definition extends (w w' : world) : Prop :=
  RefresherData.auth (data w') = RefresherData.auth (data w) /\
  RefresherData.update_data (data w') = RefresherData.update_data (data w) /\
  (forall k, is_Some (RefresherData.chats (data w) !! k) ->
             is_Some (RefresherData.chats (data w') !! k)) /\
  (chats_wf (data w) -> chats_wf (data w')) /\
  exists l,
    update_queue w' = (update_queue w ++ l)%list /\
    Forall (fun u => u.1 = (RefresherData.update_data (data w), NEWMSG)) l.

(** The exception of the lookups of the author of [msg]
    ([msg['profile']['displayName']], then [msg['profile']['id']]), when
    one of them raises. *)
Definition author_error (msg : json) : option exn :=
  match getitem msg "profile" with
  | Raise e => Some e
  | Ok profile =>
      match getitem profile "displayName" with
      | Raise e => Some e
      | Ok _ =>
          match getitem profile "id" with
          | Raise e => Some e
          | Ok _ => None
          end
      end
  end.

(** The entries [cs] give, in order, the conversations and the ids of their
    latest messages listed in [ids]. *)
Definition lists (cs : list json) (ids : list (atom * json)) : Prop :=
  Forall2 (fun chat i => exists msg content, latest chat i.1 msg i.2 content) cs ids.

(** The exception that the identity query of [run] meets, if any: the
    request fails, or the answer is a 200 with a dict that has no
    [data.user.profile.id]. *)
Definition identity_error (ident : reply) : option exn :=
  match ident with
  | Failed => Some ClientError
  | Response status parsed text =>
      let d := Refresher.api_data parsed text in
      if (status =? 200) && is_dict d then
        match profile_id d with
        | Raise e => Some e
        | Ok _ => None
        end
      else None
  end.

(** A message without a readable author, and an answer of the API to a
    token it does not know. *)
Definition c1_ghost : json :=
  chat_entry "c1" (obj [("profile", JNone); ("content", JStr "bye"); ("id", JStr "m2")]).


Definition unauthorized : reply :=
  Response 200 (Some (obj [("errors", JList [obj [("message", JStr "Unauthorized")]]);
                           ("data", JNone)])) "".

(** Alice after a stop. *)
Definition start_alice : Message.t := Message.mk (Some "/start") 1001.

(** ** The whole program *)

(** The task that runs a refresher is about to ask for the identity, is in
    its loop, or has ended with an exception. *)
Inductive phase :=
  | Starting
  | Polling
  | Ended.

(** The bot, the phases of the tasks of its refreshers, the standard
    output, the queries posted to the API, the answers given to commands
    and the notifications sent, each with its chat. *)
Record system := System {
  bot : Bot.t;
  phases : gmap Z phase;
  output : list printed;
  queries : list string;
  answers : list (Z * string);
  notifications : list (Z * string)
}.

(** What can happen: a message arrives; the task of a refresher gets the
    answer to its identity query, or to the chats query of a tick (the
    answer is not looked at when the refresher does not ask); the
    dispatcher takes an update and its sending returns or raises. *)
Inductive happening :=
  | Command (msg : Message.t)
  | Identity (uid : Z) (r : reply)
  | Timer (uid : Z) (r : reply)
  | Delivery (ok : bool).

(** A statement of the refresher of [uid], run on its data and on the queue
    and the output it shares with the rest. *)
Definition refresher_step (uid : Z) (m : M unit) (s : system) : system :=
  match Bot._refreshers (bot s) !! uid with
  | None => s
  | Some d =>
      let '(w, res) := m (World d (Bot._refresher_queue (bot s)) (output s) (queries s)) in
      System (Bot.mk (Bot._db (bot s)) (<[uid := data w]> (Bot._refreshers (bot s)))
                     (update_queue w) (Bot._tasks (bot s)))
             (<[uid := match res with Ok _ => Polling | Raise _ => Ended end]> (phases s))
             (stdout w) (posted w) (answers s) (notifications s)
  end.

Definition step (repr : json -> string) (h : happening) (s : system) : system :=
  match h with
  | Command msg =>
      let uid := Message.chat_id msg in
      let '(bot', res) := Bot._on_message (bot s) msg in
      System bot'
        (if bool_decide (is_Some (Bot._refreshers (bot s) !! uid)) then phases s
         else if bool_decide (is_Some (Bot._refreshers bot' !! uid))
              then <[uid := Starting]> (phases s)
              else phases s)
        (output s) (queries s)
        (answers s ++ match res with
                      | Ok texts => map (fun text => (uid, text)) texts
                      | Raise _ => []
                      end)
        (notifications s)
  | Identity uid r =>
      match phases s !! uid with
      | Some Starting => refresher_step uid (Refresher.resolve_self_id r) s
      | _ => s
      end
  | Timer uid r =>
      match phases s !! uid with
      | Some Polling => refresher_step uid (Refresher.tick r) s
      | _ => s
      end
  | Delivery ok =>
      let '(bot', out) := Bot._get_refresher_updates repr [ok] (bot s) in
      System bot' (phases s) (output s) (queries s) (answers s) (notifications s ++ out)
  end.

Definition steps (repr : json -> string) (hs : list happening) (s : system) : system :=
  fold_left (fun s h => step repr h s) hs s.

(** The program as it starts on the shelf [db]: the bot of [__init__], then
    the tasks of [run]. *)
Definition boot (db : gmap string shelf_val) : result system :=
  match Bot.__init__ db with
  | Ok b => Ok (System (Bot.run b) ((fun _ => Starting) <$> Bot._refreshers b) [] [] [] [])
  | Raise e => Raise e
  end.

(** What holds of the program at all times. *)
Definition consistent (s : system) : Prop :=
  (forall uid d, Bot._refreshers (bot s) !! uid = Some d ->
                 RefresherData.update_data d = uid) /\
  (forall u, u ∈ Bot._refresher_queue (bot s) ->
             is_Some (Bot._refreshers (bot s) !! u.1.1) /\ u.1.2 = NEWMSG) /\
  (forall n, n ∈ notifications s -> is_Some (Bot._refreshers (bot s) !! n.1)) /\
  (exists uids,
      Bot._tasks (bot s) = ([Bot.GetRefresherUpdates; Bot.SyncDb] ++ map Bot.Run uids)%list /\
      NoDup uids /\
      forall uid, uid ∈ uids <-> is_Some (Bot._refreshers (bot s) !! uid)) /\
  (forall uid, is_Some (phases s !! uid) <-> is_Some (Bot._refreshers (bot s) !! uid)) /\
  Bot._db (bot s) !! "refreshers" = Some (SDict ∅).

(** The sessions of [s] are still there in [s'], each with its credential,
    its destination and all its chats. *)
Definition keeps_sessions (s s' : system) : Prop :=
  forall uid d,
    Bot._refreshers (bot s) !! uid = Some d ->
    exists d',
      Bot._refreshers (bot s') !! uid = Some d' /\
      RefresherData.auth d' = RefresherData.auth d /\
      RefresherData.update_data d' = RefresherData.update_data d /\
      forall k, is_Some (RefresherData.chats d !! k) -> is_Some (RefresherData.chats d' !! k).

(** Bob logs in, his refresher learns who he is and polls twice, and the
    dispatcher takes a turn. *)
Definition bob_story : list happening :=
  [Command login_bob;
   Identity 42 (identity_reply "u-robert");
   Timer 42 (chats_reply [c1_old]);
   Timer 42 (chats_reply [c1_bob; c2_dan]);
   Delivery true].

(** The updates of the queue [q] that are for the chat [uid]. *)
Definition for_chat (uid : Z) (q : list update) : list update :=
  filter (fun u => u.1.1 = uid) q.

(** Bob's refresher meets a reply without ['data'] and ends. *)
Definition bob_accident : list happening :=
  [Command login_bob;
   Identity 42 (identity_reply "u-robert");
   Timer 42 (chats_reply [c1_old]);
   Timer 42 (Response 200 (Some (obj [])) "{}")].

(** In [s] the refresher of [uid] has ended, its data is [d] up to the
    flag, and the queue holds for [uid] at most what is left of the updates
    that [q] held for it. *)
Definition ended_with (uid : Z) (d : RefresherData.t) (q : list update) (s : system) : Prop :=
  phases s !! uid = Some Ended /\
  (exists b, Bot._refreshers (bot s) !! uid = Some (RefresherData.set_running d b)) /\
  for_chat uid (Bot._refresher_queue (bot s)) `suffix_of` for_chat uid q.

(** * Properties *)

(** ** The primitives on examples *)

Example split_words : split "  /login   bob-token " = ["/login"; "bob-token"].
Proof. reflexivity. Qed.

Example str_neg : str (-1001234) = "-1001234" /\ str 0 = "0".
Proof. split; reflexivity. Qed.

(** ** One turn of the loop of [_do_refresh] *)

Section refresh_chat.
Import Refresher RefresherData.

Variables (chat msg m content : json) (cid : atom).
Hypothesis Hlatest : latest chat cid msg m content.

Ltac start :=
  destruct Hlatest as (Hid & Hmsg & Hm & Hcontent);
  unfold about in Hid;
  unfold refresh_chat, bind, lift, gets, modify, ret, queue_put;
  rewrite Hid, Hmsg, Hm, Hcontent; cbn [hashable data].

(** A conversation seen for the first time is recorded; nothing is put on
    the queue. *)
Lemma refresh_chat_unseen w :
  chats (data w) !! cid = None ->
  refresh_chat chat w =
    (World (set_chats (data w) (<[cid := Chat.mk cid m]> (chats (data w))))
           (update_queue w) (stdout w) (posted w), Ok tt).
Proof.
  intros Hnone. start.
  rewrite bool_decide_eq_false_2 by (rewrite Hnone; apply is_Some_None).
  cbn. rewrite lookup_insert_eq. cbn.
  by rewrite bool_decide_eq_true_2.
Qed.

(** A conversation whose latest message is the one seen last: nothing
    changes. *)
Lemma refresh_chat_same w ch :
  chats (data w) !! cid = Some ch ->
  Chat.last_msg ch = m ->
  refresh_chat chat w = (w, Ok tt).
Proof.
  intros Hsome Hsame. start.
  rewrite bool_decide_eq_true_2 by (rewrite Hsome; eauto).
  cbn. rewrite Hsome. cbn.
  by rewrite bool_decide_eq_true_2.
Qed.



End refresh_chat.

(** A turn of the loop writes nothing but the chat of its entry and the
    queue, whatever the entry and however the turn ends. *)
Section frame.
Import Refresher RefresherData.

Ltac unchanged :=
  cbn [fst data update_queue stdout posted chats set_chats
       auth running update_data self_id];
  split; [done | split; [by exists []; rewrite app_nil_r | done]].

Lemma refresh_chat_frame chat w :
  same_session w (refresh_chat chat w).1 /\
  (exists l, update_queue (refresh_chat chat w).1 = (update_queue w ++ l)%list) /\
  (forall k, ~ about k chat ->
     chats (data (refresh_chat chat w).1) !! k = chats (data w) !! k).
Proof.
  unfold same_session, about, refresh_chat, bind, lift, gets, modify, ret, raise, queue_put.
  destruct (getitem chat "id") as [chat_id|]; [|unchanged].
  destruct (getitem chat "lastMessage") as [msg|]; [|unchanged].
  destruct (getitem msg "id") as [msg_id|]; [|unchanged].
  destruct (getitem msg "content") as [content|]; [|unchanged].
  destruct chat_id as [k0| |]; cbn [hashable]; [|unchanged..].
  destruct (bool_decide (is_Some (chats (data w) !! k0)));
    cbn [data update_queue stdout posted chats set_chats auth running update_data self_id].
  all: match goal with |- context [Chat.last_msg <$> ?m !! ?k1] =>
         assert (Hchats : forall k, Ok (JAtom k1) <> Ok (JAtom k) -> m !! k = chats (data w) !! k)
           by (intros k Hk; rewrite ?lookup_insert_ne by congruence; done);
         destruct (Chat.last_msg <$> m !! k1) as [last|]
       end.
  all: try unchanged.
  all: case_bool_decide; [unchanged|].
  all: cbn [data update_queue stdout posted chats set_chats auth running update_data self_id].
  all: match goal with |- context [alter ?f ?k1 ?m] =>
         assert (Halter : forall k, Ok (JAtom k1) <> Ok (JAtom k) ->
                   alter f k1 m !! k = chats (data w) !! k)
           by (intros k Hk; rewrite lookup_alter_ne by congruence; auto)
       end.
  all: destruct (getitem msg "profile") as [profile|]; [|unchanged].
  all: destruct (getitem profile "displayName") as [sender|]; [|unchanged].
  all: destruct (getitem profile "id") as [author|]; [|unchanged].
  all: cbn [data update_queue stdout posted chats set_chats auth running update_data self_id].
  all: case_bool_decide; [unchanged|].
  all: cbn [fst data update_queue stdout posted chats set_chats auth running update_data self_id].
  all: split; [done | split; [by eexists | done]].
Qed.

End frame.

(** ** The loop of [_do_refresh] *)

Section cycle.
Import Refresher RefresherData.

Lemma for_each_app {A} (l1 l2 : list A) body w :
  for_each (l1 ++ l2) body w =
    match for_each l1 body w with
    | (w1, Ok _) => for_each l2 body w1
    | (w1, Raise e) => (w1, Raise e)
    end.
Proof.
  revert w. induction l1 as [|x l1 IH]; intros w; [done|].
  cbn. unfold bind. destruct (body x w) as [w1 [[]|e]]; [apply IH | done].
Qed.

Lemma same_session_refl w : same_session w w.
Proof. by unfold same_session. Qed.

Lemma same_session_trans w1 w2 w3 :
  same_session w1 w2 -> same_session w2 w3 -> same_session w1 w3.
Proof. unfold same_session. intuition congruence. Qed.

(** The entries about other conversations leave the chat of [cid] alone
    and put nothing on the queue for it. *)
Lemma for_each_others cid cs w :
  Forall (fun c => ~ about cid c) cs ->
  same_session w (for_each cs refresh_chat w).1 /\
  chats (data (for_each cs refresh_chat w).1) !! cid = chats (data w) !! cid /\
  enqueued_by (fun c => bool_decide (about cid c)) cs w = [].
Proof.
  intros Hcs. revert w. induction Hcs as [|c cs Hc _ IH]; intros w.
  { cbn. auto using same_session_refl. }
  destruct (refresh_chat_frame c w) as (Hsame & _ & Hchats).
  cbn [for_each enqueued_by]. unfold bind.
  rewrite bool_decide_eq_false_2 by done.
  destruct (refresh_chat c w) as [w1 [[]|e]]; cbn [fst app] in *.
  - destruct (IH w1) as (Hsame' & Hchats' & ->).
    split; [by eapply same_session_trans|].
    split; [|done]. rewrite Hchats'. auto.
  - auto.
Qed.

(** Selecting every entry gives what the loop adds to the queue. *)
Lemma enqueued_by_all cs w :
  update_queue (for_each cs refresh_chat w).1
    = (update_queue w ++ enqueued_by (fun _ => true) cs w)%list.
Proof.
  revert w. induction cs as [|c cs IH]; intros w.
  { cbn. by rewrite app_nil_r. }
  destruct (refresh_chat_frame c w) as (_ & (l & Hl) & _).
  cbn [for_each enqueued_by]. unfold bind.
  destruct (refresh_chat c w) as [w1 [[]|e]]; cbn [fst] in *.
  - by rewrite IH, Hl, drop_app_length, app_assoc.
  - by rewrite Hl, drop_app_length, app_nil_r.
Qed.



(** When the reply lists chats, [_do_refresh] is the loop over them. *)
Lemma iterated_reports r cs : reports r cs -> iterated r = cs.
Proof.
  intros (d & text & x & -> & Hd & Hx). unfold iterated.
  destruct d as [| |items]; try discriminate. cbn [Refresher.api_data is_dict Z.eqb andb Pos.eqb].
  by rewrite Hd, Hx.
Qed.

Lemma do_refresh_reports r cs w :
  reports r cs ->
  _do_refresh r w = for_each cs refresh_chat (asked w) /\ iterated r = cs.
Proof.
  intros Hr. split; [|by apply iterated_reports].
  destruct Hr as (d & text & x & -> & Hd & Hx).
  unfold _do_refresh, _api, bind, post, ret, lift.
  destruct d as [| |items]; try discriminate. cbn [Refresher.api_data is_dict Z.eqb andb Pos.eqb].
  by rewrite Hd, Hx.
Qed.

End cycle.

(** ** What a turn does to the baseline *)

Section baseline.
Import Refresher RefresherData.

(** Whatever the state and however the turn ends, the entry's message id
    is the baseline after the turn. *)
Lemma refresh_chat_baseline chat cid msg m content w :
  latest chat cid msg m content ->
  baseline (refresh_chat chat w).1 cid = Some m.
Proof.
  intros (Hid & Hmsg & Hm & Hcontent). unfold about in Hid.
  unfold baseline, refresh_chat, bind, lift, gets, modify, ret, raise, queue_put.
  rewrite Hid, Hmsg, Hm, Hcontent. cbn [hashable data].
  destruct (chats (data w) !! cid) as [ch|] eqn:Hch.
  - rewrite bool_decide_eq_true_2 by eauto.
    cbn [data fmap option_fmap option_map]. rewrite Hch. cbn [fmap option_fmap option_map].
    case_bool_decide as Hlast; cbn [fst data chats set_chats].
    { by rewrite Hch; cbn; f_equal. }
    assert (Hnew : Chat.last_msg <$>
              alter (fun c => Chat.mk (Chat.id c) m) cid (chats (data w)) !! cid = Some m)
      by (by rewrite lookup_alter_eq, Hch).
    destruct (getitem msg "profile") as [profile|]; [|done].
    destruct (getitem profile "displayName"); [|done].
    destruct (getitem profile "id"); [|done].
    cbn [data self_id set_chats]. by case_bool_decide.
  - rewrite bool_decide_eq_false_2 by (by intros [? ?]).
    cbn. rewrite lookup_insert_eq. cbn.
    rewrite bool_decide_eq_true_2 by done. cbn.
    by rewrite lookup_insert_eq.
Qed.



(** [_do_refresh] either runs the loop over the iterated list, or leaves
    the data and the queue as they are. *)
Lemma do_refresh_cases r w :
  _do_refresh r w = for_each (iterated r) refresh_chat (asked w) \/
  (iterated r = [] /\
   data (_do_refresh r w).1 = data w /\
   update_queue (_do_refresh r w).1 = update_queue w).
Proof.
  unfold _do_refresh, iterated, _api, bind, post, ret, raise, lift, print.
  destruct r as [|status parsed text]; [by right|].
  destruct ((status =? 200) && is_dict _); [|by right].
  destruct (getitem _ "data") as [x|]; [|by right].
  destruct (getitem x "chats") as [cl|]; [|by right].
  destruct (iter cl); [by left | by right].
Qed.


End baseline.

(** ** The refresh cycle *)

Section refresh_cycle.
Import Refresher RefresherData.



End refresh_cycle.



(** A reply that reports [cid] once, with the message id [m], gives [m]
    wherever it speaks of [cid]. *)
Lemma reports_still_latest r pre chat post cid msg m content :
  reports r (pre ++ chat :: post) ->
  Forall (fun c => ~ about cid c) (pre ++ post) ->
  latest chat cid msg m content ->
  still_latest cid m r.
Proof.
  intros Hr [Hpre Hpost]%Forall_app (_ & Hmsg & Hm & _).
  unfold still_latest. rewrite (iterated_reports r _ Hr).
  apply Forall_app. split; [|constructor].
  - eapply Forall_impl; [exact Hpre | by intros c Hc Habout].
  - intros _ msg' m' Hmsg' Hm'. congruence.
  - eapply Forall_impl; [exact Hpost | by intros c Hc Habout].
Qed.






(** ** The run of a refresher *)

Section run.
Import Refresher RefresherData.

Lemma for_each_same_session cs w :
  same_session w (for_each cs refresh_chat w).1.
Proof.
  revert w. induction cs as [|c cs IH]; intros w; [apply same_session_refl|].
  destruct (refresh_chat_frame c w) as (Hsame & _ & _).
  cbn [for_each]. unfold bind.
  destruct (refresh_chat c w) as [w1 [[]|e]]; cbn [fst] in *; [|done].
  by eapply same_session_trans.
Qed.

(** A cycle posts the chats query, once, and keeps the session but for
    its chats. *)
Lemma do_refresh_frame r w :
  posted (_do_refresh r w).1 = (posted w ++ [chats_query])%list /\
  self_id (data (_do_refresh r w).1) = self_id (data w) /\
  running (data (_do_refresh r w).1) = running (data w).
Proof.
  assert (Hloop : forall cs,
    posted (for_each cs refresh_chat (asked w)).1 = (posted w ++ [chats_query])%list /\
    self_id (data (for_each cs refresh_chat (asked w)).1) = self_id (data w) /\
    running (data (for_each cs refresh_chat (asked w)).1) = running (data w)).
  { intros cs.
    destruct (for_each_same_session cs (asked w)) as (_ & Hr & _ & Hs & _ & Hp).
    by rewrite Hp, Hs, Hr. }
  unfold _do_refresh, _api, bind, post, ret, raise, lift, print.
  destruct r as [|status parsed text]; [done|].
  destruct ((status =? 200) && is_dict _); [|done].
  destruct (getitem _ "data") as [x|]; [|done].
  destruct (getitem x "chats") as [cl|]; [|done].
  destruct (iter cl) as [cs|]; [apply Hloop | done].
Qed.






(** A tick of a session that is not running does nothing. *)
Lemma tick_inactive r w :
  running (data w) = false -> tick r w = (w, Ok tt).
Proof. intros Hoff. unfold tick, bind, gets, ret. by rewrite Hoff. Qed.

Lemma loop_inactive rs w :
  running (data w) = false ->
  loop (map Tick rs) w = (w, Ok tt) /\
  forall cid, loop_notified cid (map Tick rs) w = [].
Proof.
  intros Hoff. induction rs as [|r rs [IH1 IH2]]; [done|].
  cbn [map loop loop_notified]. unfold bind.
  rewrite (tick_inactive r w Hoff), Hoff. split; [done|].
  intros cid. by rewrite IH2.
Qed.

End run.


(** C5 (the code departs from the claim): a 200 reply to the chats query
    whose body is a dict without ['data'] is a failure of the query, yet
    the cycle raises [KeyError] out of the loop of [run]: nothing is
    printed, and no later tick asks again, whatever the later events.  The
    data and the queue are as before. *)
Theorem C5_reply_without_data_ends_the_refresher (w : world) (later : list Refresher.event) :
  RefresherData.running (data w) = true ->
  Refresher.loop (Refresher.Tick (Response 200 (Some (obj [])) "{}") :: later) w
    = (World (data w) (update_queue w) (stdout w)
             (posted w ++ [Refresher.chats_query]), Raise KeyError).
Proof.
  intros Hon. cbn [Refresher.loop].
  unfold Refresher.tick, gets, bind. by rewrite Hon.
Qed.


(** ** The bot *)

Section bot.
Import Bot.

(** The key of a login is never the key of the dict of refreshers. *)
Lemma str_not_refreshers n : str n <> "refreshers".
Proof.
  unfold str. destruct (Z.to_int n) as [u|u]; cbn; [|discriminate].
  destruct u; cbn; discriminate.
Qed.

(** A bot that started has loaded no refresher, and its shelf has an
    empty dict of refreshers. *)
Lemma init_loads_nothing db bot :
  __init__ db = Ok bot ->
  _refreshers bot = ∅ /\
  _db bot !! "refreshers" = Some (SDict ∅) /\
  _refresher_queue bot = [] /\ _tasks bot = [].
Proof.
  unfold __init__.
  set (db1 := if bool_decide _ then db else _).
  destruct (db1 !! "refreshers") as [[items|d]|] eqn:Hdb; try discriminate.
  destruct (map_to_list items) as [|[k refdata] vals] eqn:Hitems; [|discriminate].
  apply map_to_list_empty_iff in Hitems as ->.
  cbn. intros [= <-]. done.
Qed.

(** A message whose first word is [cmd], from the chat [uid]. *)
Lemma on_message_command bot msg text cmd rest :
  Message.text msg = Some text ->
  split text = cmd :: rest ->
  String.prefix "/" cmd = true ->
  _on_message bot msg =
    let uid := Message.chat_id msg in
    let '(bot1, out1) :=
      if bool_decide (cmd = "/start") then on_start uid bot else (bot, []) in
    let '(bot2, out2) :=
      match cmd :: rest with
      | [_; credential] =>
          if bool_decide (cmd = "/login") then on_login uid credential bot1
          else (bot1, [])
      | _ => (bot1, [])
      end in
    let '(bot3, out3) :=
      if bool_decide (cmd = "/stop") then on_stop uid bot2 else (bot2, []) in
    (bot3, Ok (out1 ++ out2 ++ out3)%list).
Proof.
  intros Htext Hsplit Hslash. unfold _on_message. rewrite Htext.
  rewrite bool_decide_eq_false_2 by (by intros ->).
  by rewrite Hsplit, Hslash.
Qed.

End bot.

(** C6 (the code departs from the claim): a login from a chat without a
    session makes a session that is running, has no chats and no self id,
    and stores it on the shelf under the id of the chat; but a bot that
    starts on that shelf has no session at all: [__init__] loads the dict
    under ['refreshers'], which no login writes to. *)
Theorem C6_login_is_not_loaded_at_startup
    (db : gmap string shelf_val) (bot : Bot.t) (msg : Message.t)
    (text credential : string) :
  Bot.__init__ db = Ok bot ->
  Message.text msg = Some text ->
  split text = ["/login"; credential] ->
  let uid := Message.chat_id msg in
  let session := RefresherData.mk ∅ credential true uid JNone in
  exists bot',
    Bot._on_message bot msg = (bot', Ok ["receiving messages"]) /\
    Bot._refreshers bot' !! uid = Some session /\
    Bot._db bot' !! str uid = Some (SData session) /\
    exists restarted,
      Bot.__init__ (Bot._db bot') = Ok restarted /\
      Bot._refreshers restarted = ∅.
Proof.
  intros Hinit Htext Hsplit uid session.
  destruct (init_loads_nothing db bot Hinit) as (Hnone & Hdict & _ & _).
  rewrite (on_message_command bot msg text "/login" [credential]) by done.
  rewrite !bool_decide_eq_false_2 by done.
  rewrite bool_decide_eq_true_2 by done.
  unfold Bot.on_login. rewrite Hnone, lookup_empty. fold uid session.
  eexists. split; [reflexivity|]. cbn [Bot._refreshers Bot._db].
  rewrite !lookup_insert_eq. do 2 (split; [done|]).
  unfold Bot.__init__.
  assert (Hkept : <[str uid := SData session]> (Bot._db bot) !! "refreshers"
                  = Some (SDict ∅))
    by (by rewrite lookup_insert_ne by apply str_not_refreshers).
  rewrite bool_decide_eq_true_2 by (rewrite Hkept; eauto).
  rewrite Hkept, map_to_list_empty. cbn. eauto.
Qed.

(** C8: a stop from a chat that has a session writes the running flag of
    that session and nothing else: its chats with their baselines, its
    credential, its destination and its self id are as before, and so are
    the other sessions, the shelf, the queue and the tasks; and while the
    flag is off, the ticks of the refresher ask nothing, change nothing and
    enqueue nothing. *)
Theorem C8_stop_writes_the_flag_only
    (bot : Bot.t) (msg : Message.t) (text : string) (rest : list string)
    (session : RefresherData.t) :
  Message.text msg = Some text ->
  split text = "/stop" :: rest ->
  Bot._refreshers bot !! Message.chat_id msg = Some session ->
  let uid := Message.chat_id msg in
  let bot' := (Bot._on_message bot msg).1 in
  (exists stopped,
      Bot._refreshers bot' !! uid = Some stopped /\
      RefresherData.running stopped = false /\
      RefresherData.chats stopped = RefresherData.chats session /\
      RefresherData.auth stopped = RefresherData.auth session /\
      RefresherData.update_data stopped = RefresherData.update_data session /\
      RefresherData.self_id stopped = RefresherData.self_id session /\
      forall (replies : list reply) (queue : list update) (out : list printed)
             (queries : list string),
        let w := World stopped queue out queries in
        Refresher.loop (map Refresher.Tick replies) w = (w, Ok tt) /\
        forall cid, loop_notified cid (map Refresher.Tick replies) w = []) /\
  (forall other, other <> uid ->
      Bot._refreshers bot' !! other = Bot._refreshers bot !! other) /\
  Bot._db bot' = Bot._db bot /\
  Bot._refresher_queue bot' = Bot._refresher_queue bot /\
  Bot._tasks bot' = Bot._tasks bot.
Proof.
  intros Htext Hsplit Hsession uid bot'. subst bot'.
  rewrite (on_message_command bot msg text "/stop" rest) by done.
  rewrite !bool_decide_eq_false_2 by done.
  rewrite bool_decide_eq_true_2 by done.
  assert (Hlogin : match "/stop" :: rest with
                   | [_; _] => (bot, @nil string)
                   | _ => (bot, [])
                   end = (bot, [])) by (by destruct rest as [|? [|? ?]]).
  rewrite Hlogin. unfold Bot.on_stop. fold uid in Hsession |- *. rewrite Hsession.
  cbn [fst Bot.set_refreshers Bot._refreshers Bot._db Bot._refresher_queue Bot._tasks].
  split; [|split; [|done]].
  - exists (RefresherData.set_running session false).
    rewrite lookup_insert_eq. do 6 (split; [done|]).
    intros replies queue out queries. by apply loop_inactive.
  - intros other Hother. by rewrite lookup_insert_ne.
Qed.

(** C9: a start or a stop from a chat that has no session is answered by
    "you haven't logged in yet" and leaves the bot as it was: no session is
    made and none is changed. *)
Theorem C9_start_stop_without_session
    (bot : Bot.t) (msg : Message.t) (text cmd : string) (rest : list string) :
  Message.text msg = Some text ->
  split text = cmd :: rest ->
  cmd = "/start" \/ cmd = "/stop" ->
  Bot._refreshers bot !! Message.chat_id msg = None ->
  Bot._on_message bot msg = (bot, Ok ["you haven't logged in yet"]).
Proof.
  intros Htext Hsplit Hcmd Hnone.
  assert (Hslash : String.prefix "/" cmd = true) by (by destruct Hcmd as [-> | ->]).
  rewrite (on_message_command bot msg text cmd rest Htext Hsplit Hslash).
  unfold Bot.on_start, Bot.on_stop. rewrite Hnone.
  destruct Hcmd as [-> | ->].
  - rewrite bool_decide_eq_true_2 by done.
    rewrite !bool_decide_eq_false_2 by done.
    destruct rest as [|? [|? ?]]; reflexivity.
  - rewrite (bool_decide_eq_true_2 ("/stop" = "/stop")) by done.
    rewrite !bool_decide_eq_false_2 by done.
    destruct rest as [|? [|? ?]]; cbn; rewrite Hnone; reflexivity.
Qed.

(** ** The statements on the example session *)

Ltac by_running := vm_compute; reflexivity.

Ltac reported :=
  do 3 eexists; split; [reflexivity | split; by_running].

Ltac not_about := intros Habout; vm_compute in Habout; discriminate.

Ltac is_latest := repeat split; by_running.







Lemma C5_reply_without_data_ends_the_refresher_witness :
  Refresher.loop
    [Refresher.Tick (Response 200 (Some (obj [])) "{}");
     Refresher.Tick (chats_reply [c1_bob])] alice_world
  = (World alice [] [] [Refresher.chats_query], Raise KeyError).
Proof.
  apply (C5_reply_without_data_ends_the_refresher alice_world
           [Refresher.Tick (chats_reply [c1_bob])]).
  reflexivity.
Defined.

Lemma C6_login_is_not_loaded_at_startup_witness :
  exists bot',
    Bot._on_message fresh_bot login_bob = (bot', Ok ["receiving messages"]) /\
    Bot._refreshers bot' !! 42 = Some bob /\
    Bot._db bot' !! "42" = Some (SData bob) /\
    exists restarted,
      Bot.__init__ (Bot._db bot') = Ok restarted /\
      Bot._refreshers restarted = ∅.
Proof.
  apply (C6_login_is_not_loaded_at_startup ∅ fresh_bot login_bob
           "/login bob-token" "bob-token").
  - by_running.
  - reflexivity.
  - by_running.
Defined.



Lemma C8_stop_writes_the_flag_only_witness :
  let bot' := (Bot._on_message alice_bot stop_alice).1 in
  (exists stopped,
      Bot._refreshers bot' !! 1001 = Some stopped /\
      RefresherData.running stopped = false /\
      RefresherData.chats stopped = RefresherData.chats alice /\
      RefresherData.auth stopped = RefresherData.auth alice /\
      RefresherData.update_data stopped = RefresherData.update_data alice /\
      RefresherData.self_id stopped = RefresherData.self_id alice /\
      forall (replies : list reply) (queue : list update) (out : list printed)
             (queries : list string),
        let w := World stopped queue out queries in
        Refresher.loop (map Refresher.Tick replies) w = (w, Ok tt) /\
        forall cid, loop_notified cid (map Refresher.Tick replies) w = []) /\
  (forall other, other <> 1001 ->
      Bot._refreshers bot' !! other = Bot._refreshers alice_bot !! other) /\
  Bot._db bot' = Bot._db alice_bot /\
  Bot._refresher_queue bot' = Bot._refresher_queue alice_bot /\
  Bot._tasks bot' = Bot._tasks alice_bot.
Proof.
  apply (C8_stop_writes_the_flag_only alice_bot stop_alice "/stop" [] alice).
  - reflexivity.
  - by_running.
  - by_running.
Defined.

Lemma C9_start_stop_without_session_witness :
  Bot._on_message fresh_bot stop_bob = (fresh_bot, Ok ["you haven't logged in yet"]).
Proof.
  apply (C9_start_stop_without_session fresh_bot stop_bob "/stop" "/stop" []).
  - reflexivity.
  - by_running.
  - right. reflexivity.
  - by_running.
Defined.

(** * Further properties of the refresher *)

Section turn.
Import Refresher RefresherData.

(** The four things a turn of the loop can do to the world: nothing; file a
    new chat; move the baseline of a chat; move it and put one update on
    the queue. *)
Lemma refresh_chat_cases chat w :
  (refresh_chat chat w).1 = w \/
  (exists k m,
      about k chat /\ chats (data w) !! k = None /\
      refresh_chat chat w =
        (World (set_chats (data w) (<[k := Chat.mk k m]> (chats (data w))))
               (update_queue w) (stdout w) (posted w), Ok tt)) \/
  (exists k c m,
      about k chat /\ chats (data w) !! k = Some c /\ Chat.last_msg c <> m /\
      (refresh_chat chat w).1 =
        World (set_chats (data w) (<[k := Chat.mk (Chat.id c) m]> (chats (data w))))
              (update_queue w) (stdout w) (posted w)) \/
  (exists k c m sender content,
      about k chat /\ chats (data w) !! k = Some c /\ Chat.last_msg c <> m /\
      refresh_chat chat w =
        (World (set_chats (data w) (<[k := Chat.mk (Chat.id c) m]> (chats (data w))))
               (update_queue w ++ [(update_data (data w), NEWMSG, (sender, content))])
               (stdout w) (posted w), Ok tt)).
Proof.
  unfold about, refresh_chat, bind, lift, gets, modify, ret, raise, queue_put.
  destruct (getitem chat "id") as [chat_id|]; [|by left].
  destruct (getitem chat "lastMessage") as [msg|]; [|by left].
  destruct (getitem msg "id") as [msg_id|]; [|by left].
  destruct (getitem msg "content") as [content|]; [|by left].
  destruct chat_id as [k| |]; cbn [hashable]; [|by left..].
  destruct (chats (data w) !! k) as [c|] eqn:Hc.
  - rewrite bool_decide_eq_true_2 by eauto.
    cbn [data]. rewrite Hc. cbn [fmap option_fmap option_map].
    case_bool_decide as Hlast; [by left|].
    rewrite (alter_alt_Some _ _ _ _ Hc).
    cbn [data update_queue stdout posted update_data self_id set_chats].
    destruct (getitem msg "profile") as [profile|];
      [|right; right; left; by exists k, c, msg_id].
    destruct (getitem profile "displayName") as [sender|];
      [|right; right; left; by exists k, c, msg_id].
    destruct (getitem profile "id") as [author|];
      [|right; right; left; by exists k, c, msg_id].
    case_bool_decide; [right; right; left; by exists k, c, msg_id|].
    right; right; right. by exists k, c, msg_id, sender, content.
  - rewrite bool_decide_eq_false_2 by (by intros [? ?]).
    cbn. rewrite lookup_insert_eq. cbn.
    rewrite bool_decide_eq_true_2 by done.
    right; left. by exists k, msg_id.
Qed.

End turn.

Section extends.
Import Refresher RefresherData.

Lemma extends_refl w : extends w w.
Proof.
  unfold extends. repeat (split; [done|]). exists []. by rewrite app_nil_r.
Qed.

Lemma extends_trans w1 w2 w3 : extends w1 w2 -> extends w2 w3 -> extends w1 w3.
Proof.
  intros (Ha & Hu & Hk & Hwf & l & Hq & Hl) (Ha' & Hu' & Hk' & Hwf' & l' & Hq' & Hl').
  unfold extends. split; [congruence|]. split; [congruence|].
  split; [auto|]. split; [auto|].
  exists (l ++ l')%list. rewrite Hq', Hq, app_assoc. split; [done|].
  apply Forall_app. split; [done|]. by rewrite <- Hu.
Qed.

(** Writing one chat under its own key, with its id kept or set to the
    key. *)
Lemma extends_insert w k c q out p l :
  (forall c0, chats (data w) !! k = Some c0 -> Chat.id c = Chat.id c0) ->
  (chats (data w) !! k = None -> Chat.id c = k) ->
  q = (update_queue w ++ l)%list ->
  Forall (fun u => u.1 = (update_data (data w), NEWMSG)) l ->
  extends w (World (set_chats (data w) (<[k := c]> (chats (data w)))) q out p).
Proof.
  intros Hsome Hnone -> Hl. unfold extends, chats_wf.
  cbn [data chats set_chats auth update_data update_queue].
  split; [done|]. split; [done|]. split; [|split; [|by exists l]].
  - intros k' Hk'. destruct (decide (k = k')) as [->|Hne].
    + rewrite lookup_insert_eq. eauto.
    + by rewrite lookup_insert_ne.
  - intros Hwf k' c'. destruct (decide (k = k')) as [->|Hne].
    + rewrite lookup_insert_eq. intros [= <-].
      destruct (chats (data w) !! k') as [c0|] eqn:Hc0; [|auto].
      rewrite (Hsome c0 eq_refl). by apply Hwf.
    + rewrite lookup_insert_ne by done. apply Hwf.
Qed.

Lemma refresh_chat_extends chat w : extends w (refresh_chat chat w).1.
Proof.
  destruct (refresh_chat_cases chat w)
    as [-> | [(k & m & _ & Hk & ->) | [(k & c & m & _ & Hk & _ & ->)
       | (k & c & m & sender & content & _ & Hk & _ & ->)]]].
  - apply extends_refl.
  - apply (extends_insert w k _ _ _ _ []); [congruence | done | by rewrite app_nil_r | done].
  - apply (extends_insert w k _ _ _ _ []);
      [by intros c0; rewrite Hk; intros [= <-] | congruence | by rewrite app_nil_r | done].
  - eapply extends_insert;
      [by intros c0; rewrite Hk; intros [= <-] | congruence | done | by repeat constructor].
Qed.

Lemma for_each_extends cs w : extends w (for_each cs refresh_chat w).1.
Proof.
  revert w. induction cs as [|c cs IH]; intros w; [apply extends_refl|].
  pose proof (refresh_chat_extends c w) as Hc.
  cbn [for_each]. unfold bind.
  destruct (refresh_chat c w) as [w1 [[]|e]]; cbn [fst] in *; [|done].
  by eapply extends_trans.
Qed.

Lemma extends_output w out p :
  extends w (World (data w) (update_queue w) out p).
Proof.
  unfold extends. cbn [data update_queue]. repeat (split; [done|]).
  exists []. by rewrite app_nil_r.
Qed.

Ltac output := cbn [fst data update_queue stdout posted]; apply extends_output.

Lemma do_refresh_extends r w : extends w (_do_refresh r w).1.
Proof.
  assert (Hloop : forall cs, extends w (for_each cs refresh_chat (asked w)).1).
  { intros cs. eapply extends_trans; [|apply for_each_extends].
    apply extends_output. }
  unfold _do_refresh, _api, bind, post, ret, raise, lift, print.
  destruct r as [|status parsed text]; [output|].
  destruct ((status =? 200) && is_dict _); [|output].
  destruct (getitem _ "data") as [x|]; [|output].
  destruct (getitem x "chats") as [cl|]; [|output].
  destruct (iter cl) as [cs|]; [apply Hloop | output].
Qed.

Lemma extends_data w d out p :
  auth d = auth (data w) -> update_data d = update_data (data w) ->
  chats d = chats (data w) ->
  extends w (World d (update_queue w) out p).
Proof.
  intros Ha Hu Hc. unfold extends, chats_wf. cbn [data update_queue]. rewrite Hc.
  repeat (split; [done|]). exists []. by rewrite app_nil_r.
Qed.

Lemma loop_extends evs w : extends w (loop evs w).1.
Proof.
  revert w. induction evs as [|[r|b] evs IH]; intros w; [apply extends_refl|..].
  - cbn [loop]. unfold tick, gets, bind.
    destruct (running (data w)).
    + pose proof (do_refresh_extends r w) as Hr.
      destruct (_do_refresh r w) as [w1 [[]|e]]; cbn [fst] in *; [|done].
      by eapply extends_trans.
    + apply IH.
  - cbn [loop]. unfold bind, modify.
    eapply extends_trans; [|apply IH]. by apply extends_data.
Qed.

Lemma resolve_self_id_extends ident w : extends w (resolve_self_id ident w).1.
Proof.
  unfold resolve_self_id, _api, bind, gets, post, ret, raise, lift, print, modify.
  destruct (negb (truthy (self_id (data w)))); [|apply extends_refl].
  destruct ident as [|status parsed text]; [output|].
  destruct ((status =? 200) && is_dict _); [|output].
  destruct (getitem _ "data") as [x|]; [|output].
  destruct (getitem x "user") as [user|]; [|output].
  destruct (getitem user "profile") as [profile|]; [|output].
  destruct (getitem profile "id") as [v|]; [|output].
  cbn [fst data update_queue stdout posted]. by apply extends_data.
Qed.

End extends.

(** X1: a refresher never changes the credential or the destination of its
    session, never forgets a chat it has filed, keeps every chat filed under
    its own id, and only ever adds to the queue, each time a new-message
    update for the destination of its session; this holds after any stretch
    of a run, however the run ends. *)
Theorem run_extends_the_session (ident : reply) (evs : list Refresher.event) (w : world) :
  extends w (Refresher.run ident evs w).1.
Proof.
  unfold Refresher.run, bind.
  pose proof (resolve_self_id_extends ident w) as Hstart.
  destruct (Refresher.resolve_self_id ident w) as [w1 [[]|e]]; cbn [fst] in *; [|done].
  eapply extends_trans; [exact Hstart | apply loop_extends].
Qed.

Section counting.
Import Refresher RefresherData.

Lemma for_each_count cs w :
  exists l,
    update_queue (for_each cs refresh_chat w).1 = (update_queue w ++ l)%list /\
    (length l <= length cs)%nat.
Proof.
  revert w. induction cs as [|c cs IH]; intros w.
  { exists []. by rewrite app_nil_r. }
  cbn [for_each]. unfold bind.
  assert (Hc : exists l, update_queue (refresh_chat c w).1 = (update_queue w ++ l)%list /\
                         (length l <= 1)%nat).
  { destruct (refresh_chat_cases c w)
      as [-> | [(k & m & _ & _ & ->) | [(k & c0 & m & _ & _ & _ & ->)
         | (k & c0 & m & sender & content & _ & _ & _ & ->)]]]; cbn [fst update_queue].
    1-3: exists []; rewrite app_nil_r; split; [done | cbn; lia].
    eexists. split; [done|]. cbn. lia. }
  destruct Hc as (l & Hl & Hlen).
  destruct (refresh_chat c w) as [w1 [[]|e]]; cbn [fst] in *.
  - destruct (IH w1) as (l' & Hl' & Hlen').
    exists (l ++ l')%list. rewrite Hl', Hl, app_assoc, length_app. cbn. split; [done | lia].
  - exists l. cbn. split; [done | lia].
Qed.

End counting.

(** X2: a cycle, however it ends, posts the chats query once, leaves the
    self id and the running flag of the session as they are, and adds to the
    queue at most one update for each entry of the reply it went through. *)
Theorem cycle_enqueues_at_most_one_per_entry (r : reply) (w : world) :
  let w' := (Refresher._do_refresh r w).1 in
  posted w' = (posted w ++ [Refresher.chats_query])%list /\
  RefresherData.self_id (data w') = RefresherData.self_id (data w) /\
  RefresherData.running (data w') = RefresherData.running (data w) /\
  update_queue w' = (update_queue w ++ enqueued w w')%list /\
  (length (enqueued w w') <= length (iterated r))%nat.
Proof.
  intros w'. subst w'.
  destruct (do_refresh_frame r w) as (Hp & Hs & Hr).
  do 3 (split; [done|]). unfold enqueued.
  destruct (do_refresh_cases r w) as [-> | (_ & _ & ->)].
  - destruct (for_each_count (iterated r) (asked w)) as (l & -> & Hlen).
    cbn [asked update_queue]. by rewrite drop_app_length.
  - rewrite drop_all, app_nil_r. cbn. split; [done | lia].
Qed.



Section errors.
Import Refresher RefresherData.

(** A turn for a new message whose author cannot be read: the baseline is
    moved, then the lookup raises. *)
Lemma refresh_chat_author_error chat msg m content cid w ch e :
  latest chat cid msg m content ->
  chats (data w) !! cid = Some ch ->
  Chat.last_msg ch <> m ->
  author_error msg = Some e ->
  refresh_chat chat w =
    (World (set_chats (data w) (<[cid := Chat.mk (Chat.id ch) m]> (chats (data w))))
           (update_queue w) (stdout w) (posted w), Raise e).
Proof.
  intros (Hid & Hmsg & Hm & Hcontent) Hsome Hdiff Herr.
  unfold about in Hid. unfold author_error in Herr.
  unfold refresh_chat, bind, lift, gets, modify, ret, raise, queue_put.
  rewrite Hid, Hmsg, Hm, Hcontent. cbn [hashable data].
  rewrite bool_decide_eq_true_2 by (rewrite Hsome; eauto).
  cbn [data]. rewrite Hsome. cbn [fmap option_fmap option_map].
  rewrite bool_decide_eq_false_2 by done.
  rewrite (alter_alt_Some _ _ _ _ Hsome).
  destruct (getitem msg "profile") as [profile|]; [|by injection Herr as ->].
  destruct (getitem profile "displayName") as [sender|]; [|by injection Herr as ->].
  destruct (getitem profile "id") as [author|]; [done | by injection Herr as ->].
Qed.

End errors.

(** X4: when a reply gives, for a conversation the session has, a new
    latest message whose author cannot be read (no ['profile'], or a profile
    without ['displayName'] or ['id']), the cycle raises out of the loop at
    that entry, after it has moved the baseline of the conversation to the
    new id: the message is not notified now, and would not be on a later
    poll of the same data either; the entries after it are not looked at. *)
Theorem message_without_author_ends_the_cycle
    (r : reply) (w : world) (pre post : list json) (chat : json) (cid : atom)
    (ch : Chat.t) (msg m2 content : json) (e : exn) :
  reports r (pre ++ chat :: post) ->
  Forall (fun c => ~ about cid c) pre ->
  (for_each pre Refresher.refresh_chat (asked w)).2 = Ok tt ->
  latest chat cid msg m2 content ->
  author_error msg = Some e ->
  RefresherData.chats (data w) !! cid = Some ch ->
  Chat.last_msg ch <> m2 ->
  let w' := (Refresher._do_refresh r w).1 in
  (Refresher._do_refresh r w).2 = Raise e /\
  baseline w' cid = Some m2 /\
  enqueued w w' = enqueued w (for_each pre Refresher.refresh_chat (asked w)).1 /\
  forall k, Forall (fun c => ~ about k c) (pre ++ [chat]) ->
    RefresherData.chats (data w') !! k = RefresherData.chats (data w) !! k.
Proof.
  intros Hr Hpre Hdone Hlatest Herr Hseen Hdiff w'. subst w'.
  destruct (do_refresh_reports r _ w Hr) as [-> _].
  rewrite for_each_app.
  destruct (for_each_others cid pre (asked w) Hpre) as (_ & Hc & _).
  destruct (for_each pre Refresher.refresh_chat (asked w)) as [w1 [[]|e1]] eqn:Hw1;
    [|discriminate].
  cbn [fst snd for_each] in *. unfold bind.
  cbn [asked data] in Hc.
  rewrite (refresh_chat_author_error chat msg m2 content cid w1 ch e)
    by (done || congruence).
  cbn [fst snd]. split; [done|]. split; [|split; [done|]].
  - unfold baseline. cbn. by rewrite lookup_insert_eq.
  - intros k [Hk Hchat]%Forall_app. apply Forall_inv in Hchat.
    destruct (for_each_others k pre (asked w) Hk) as (_ & Hck & _).
    rewrite Hw1 in Hck. cbn in Hck |- *.
    rewrite lookup_insert_ne; [done|].
    intros ->. exact (Hchat (proj1 Hlatest)).
Qed.

Section settled.
Import Refresher RefresherData.

Lemma about_inj k k' chat : about k chat -> about k' chat -> k = k'.
Proof. unfold about. congruence. Qed.

Lemma baseline_None w k : baseline w k = None -> chats (data w) !! k = None.
Proof. unfold baseline. by destruct (chats (data w) !! k). Qed.

Lemma baseline_Some w k m :
  baseline w k = Some m -> exists ch, chats (data w) !! k = Some ch /\ Chat.last_msg ch = m.
Proof.
  unfold baseline. destruct (chats (data w) !! k) as [ch|]; [|done].
  intros [= <-]. eauto.
Qed.

(** The entries of [cs] are not about a conversation that [ids] does not
    list. *)
Lemma lists_others cs ids k :
  lists cs ids -> k ∉ ids.*1 -> Forall (fun c => ~ about k c) cs.
Proof.
  induction 1 as [|c i cs ids (msg & content & Habout & _) _ IH]; [constructor|].
  rewrite fmap_cons, not_elem_of_cons. intros [Hne Hk].
  constructor; [|auto]. intros Hk'. apply Hne. by eapply about_inj.
Qed.

(** A loop over entries that all give the baseline again does nothing. *)
Lemma for_each_unchanged cs ids w :
  lists cs ids ->
  Forall (fun i => baseline w i.1 = Some i.2) ids ->
  for_each cs refresh_chat w = (w, Ok tt).
Proof.
  induction 1 as [|c i cs ids (msg & content & Hlatest) _ IH]; [done|].
  intros [Hi Hids]%Forall_cons.
  destruct (baseline_Some _ _ _ Hi) as (ch & Hch & Hlast).
  cbn [for_each]. unfold bind.
  rewrite (refresh_chat_same c msg i.2 content i.1 Hlatest w ch Hch Hlast). auto.
Qed.

(** A loop over entries of distinct conversations, each unknown or with its
    baseline as latest id: every conversation is filed, nothing is put on
    the queue. *)
Lemma for_each_settles cs ids w :
  lists cs ids ->
  NoDup ids.*1 ->
  Forall (fun i => baseline w i.1 = None \/ baseline w i.1 = Some i.2) ids ->
  exists w',
    for_each cs refresh_chat w = (w', Ok tt) /\
    update_queue w' = update_queue w /\
    same_session w w' /\
    Forall (fun i => baseline w' i.1 = Some i.2) ids /\
    forall k, k ∉ ids.*1 -> chats (data w') !! k = chats (data w) !! k.
Proof.
  intros Hcs. revert w.
  induction Hcs as [|c i cs ids (msg & content & Hlatest) Hcs IH]; intros w.
  { intros _ _. exists w. split; [done|]. split; [done|].
    split; [apply same_session_refl|]. by split. }
  rewrite fmap_cons. intros [Hi Hnodup]%NoDup_cons [Hbase Hids]%Forall_cons.
  pose proof (refresh_chat_baseline c i.1 msg i.2 content w Hlatest) as Hnew.
  destruct (refresh_chat_frame c w) as (Hsame & _ & Hothers).
  assert (Hturn : (refresh_chat c w).2 = Ok tt /\
                  update_queue (refresh_chat c w).1 = update_queue w).
  { destruct Hbase as [Hnone|Hsome].
    - by rewrite (refresh_chat_unseen c msg i.2 content i.1 Hlatest w (baseline_None _ _ Hnone)).
    - destruct (baseline_Some _ _ _ Hsome) as (ch & Hch & Hlast).
      by rewrite (refresh_chat_same c msg i.2 content i.1 Hlatest w ch Hch Hlast). }
  destruct Hturn as [Hok Hq].
  cbn [for_each]. unfold bind.
  destruct (refresh_chat c w) as [w1 res]; cbn [fst snd] in *. subst res.
  assert (Hkeep : forall k, k <> i.1 -> chats (data w1) !! k = chats (data w) !! k).
  { intros k Hk. apply Hothers. intros Hk'. apply Hk.
    eapply about_inj; [exact Hk' | apply Hlatest]. }
  destruct (IH w1 Hnodup) as (w' & Hrun & Hq' & Hsame' & Hall & Hrest).
  { apply Forall_forall. intros j Hj.
    assert (Hne : j.1 <> i.1)
      by (intros Heq; apply Hi; rewrite <- Heq; by apply list_elem_of_fmap_2).
    unfold baseline. rewrite (Hkeep _ Hne).
    by apply (proj1 (Forall_forall _ _) Hids). }
  exists w'. split; [done|]. split; [congruence|].
  split; [by eapply same_session_trans|]. split.
  - constructor; [|done]. unfold baseline in *. by rewrite (Hrest _ Hi).
  - intros k [Hk Hk']%not_elem_of_cons. rewrite (Hrest _ Hk'). by apply Hkeep.
Qed.

(** After a loop that returned over entries of distinct conversations, each
    conversation has the id the reply gave as its baseline. *)
Lemma for_each_baselines cs ids w :
  lists cs ids ->
  NoDup ids.*1 ->
  (for_each cs refresh_chat w).2 = Ok tt ->
  Forall (fun i => baseline (for_each cs refresh_chat w).1 i.1 = Some i.2) ids.
Proof.
  intros Hcs. revert w.
  induction Hcs as [|c i cs ids (msg & content & Hlatest) Hcs IH]; intros w; [constructor|].
  rewrite fmap_cons. intros [Hi Hnodup]%NoDup_cons.
  pose proof (refresh_chat_baseline c i.1 msg i.2 content w Hlatest) as Hnew.
  cbn [for_each]. unfold bind.
  destruct (refresh_chat c w) as [w1 [[]|e]]; cbn [fst snd] in *; [|discriminate].
  intros Hdone. constructor; [|by apply IH].
  destruct (for_each_others i.1 cs w1 (lists_others cs ids i.1 Hcs Hi)) as (_ & Hkeep & _).
  unfold baseline in *. by rewrite Hkeep.
Qed.

End settled.

(** X5: a cycle whose reply holds nothing new, that is, whose entries are
    about distinct conversations, each unknown to the session or with its
    baseline as the id of its latest message, returns, puts nothing at all
    on the queue, and leaves every listed conversation filed with the
    reported id and the other chats as they were.  In particular the first
    cycle after a login notifies nothing, whatever the history of the
    conversations. *)
Theorem cycle_without_news_is_silent
    (r : reply) (w : world) (cs : list json) (ids : list (atom * json)) :
  reports r cs ->
  lists cs ids ->
  NoDup ids.*1 ->
  Forall (fun i => baseline w i.1 = None \/ baseline w i.1 = Some i.2) ids ->
  let w' := (Refresher._do_refresh r w).1 in
  (Refresher._do_refresh r w).2 = Ok tt /\
  update_queue w' = update_queue w /\
  Forall (fun i => baseline w' i.1 = Some i.2) ids /\
  forall k, k ∉ ids.*1 ->
    RefresherData.chats (data w') !! k = RefresherData.chats (data w) !! k.
Proof.
  intros Hr Hcs Hnodup Hids w'. subst w'.
  destruct (do_refresh_reports r _ w Hr) as [-> _].
  destruct (for_each_settles cs ids (asked w) Hcs Hnodup Hids)
    as (w' & -> & Hq & _ & Hall & Hrest).
  done.
Qed.

(** X6: polling is idempotent: when a cycle over a reply that lists distinct
    conversations has returned, a second cycle over the same reply posts
    its query and changes nothing else: not the data, not the queue, not
    the output. *)
Theorem second_cycle_changes_nothing
    (r : reply) (w : world) (cs : list json) (ids : list (atom * json)) :
  reports r cs ->
  lists cs ids ->
  NoDup ids.*1 ->
  (Refresher._do_refresh r w).2 = Ok tt ->
  let w' := (Refresher._do_refresh r w).1 in
  Refresher._do_refresh r w' =
    (World (data w') (update_queue w') (stdout w')
           (posted w' ++ [Refresher.chats_query]), Ok tt).
Proof.
  intros Hr Hcs Hnodup Hdone w'. subst w'.
  destruct (do_refresh_reports r _ (Refresher._do_refresh r w).1 Hr) as [-> _].
  destruct (do_refresh_reports r _ w Hr) as [Hrun _]. rewrite Hrun in *.
  apply (for_each_unchanged cs ids); [done|].
  by apply for_each_baselines.
Qed.

Section twice.
Import Refresher RefresherData.



End twice.


(** X8: when the session has no self id and the identity query cannot be
    used, because the request fails or because the answer is a 200 with a
    dict that lacks [data.user.profile.id] (as the answer to a token the
    API does not know), [run] raises before its loop: nothing is printed,
    the session is as it was, and no chats query is ever posted, whatever
    happens later. *)
Theorem unusable_identity_reply_ends_the_run
    (ident : reply) (e : exn) (evs : list Refresher.event) (w : world) :
  truthy (RefresherData.self_id (data w)) = false ->
  identity_error ident = Some e ->
  Refresher.run ident evs w =
    (World (data w) (update_queue w) (stdout w)
           (posted w ++ [Refresher.identity_query]), Raise e).
Proof.
  intros Hnone Herr.
  unfold Refresher.run, Refresher.resolve_self_id, Refresher._api, bind, gets, post,
    ret, raise, lift, print, modify.
  rewrite Hnone. cbn [negb].
  destruct ident as [|status parsed text]; cbn in Herr; [by injection Herr as <-|].
  unfold profile_id in Herr.
  destruct ((status =? 200) && is_dict _); [|discriminate].
  destruct (getitem _ "data") as [x|]; [|by injection Herr as <-].
  destruct (getitem x "user") as [user|]; [|by injection Herr as <-].
  destruct (getitem user "profile") as [profile|]; [|by injection Herr as <-].
  destruct (getitem profile "id") as [v|]; [discriminate | by injection Herr as <-].
Qed.

Lemma unusable_identity_reply_ends_the_run_witness :
  Refresher.run unauthorized [Refresher.Tick (chats_reply [c1_bob])] bob_world =
    (World bob [] [] [Refresher.identity_query], Raise TypeError).
Proof.
  apply (unusable_identity_reply_ends_the_run unauthorized TypeError
           [Refresher.Tick (chats_reply [c1_bob])] bob_world).
  - reflexivity.
  - by_running.
Defined.

Lemma message_without_author_ends_the_cycle_witness :
  let r := chats_reply [c0_carol; c1_ghost; c2_dan] in
  let w' := (Refresher._do_refresh r alice_world).1 in
  (Refresher._do_refresh r alice_world).2 = Raise TypeError /\
  baseline w' (AStr "c1") = Some (JStr "m2") /\
  enqueued alice_world w' =
    enqueued alice_world
      (for_each [c0_carol] Refresher.refresh_chat (asked alice_world)).1 /\
  forall k, Forall (fun c => ~ about k c) ([c0_carol] ++ [c1_ghost]) ->
    RefresherData.chats (data w') !! k = RefresherData.chats (data alice_world) !! k.
Proof.
  apply (message_without_author_ends_the_cycle
           (chats_reply [c0_carol; c1_ghost; c2_dan]) alice_world
           [c0_carol] [c2_dan] c1_ghost (AStr "c1")
           (Chat.mk (AStr "c1") (JStr "m1"))
           (obj [("profile", JNone); ("content", JStr "bye"); ("id", JStr "m2")])
           (JStr "m2") (JStr "bye") TypeError).
  - reported.
  - repeat constructor; not_about.
  - by_running.
  - is_latest.
  - by_running.
  - by_running.
  - discriminate.
Defined.

Ltac is_listed :=
  unfold lists;
  repeat match goal with
         | |- Forall2 _ (_ :: _) (_ :: _) => constructor; [do 2 eexists; is_latest|]
         end;
  constructor.

Lemma cycle_without_news_is_silent_witness :
  let r := chats_reply [c0_carol; c1_old; c2_dan] in
  let ids := [(AStr "c0", JStr "m9"); (AStr "c1", JStr "m1"); (AStr "c2", JStr "m5")] in
  let w' := (Refresher._do_refresh r alice_world).1 in
  (Refresher._do_refresh r alice_world).2 = Ok tt /\
  update_queue w' = update_queue alice_world /\
  Forall (fun i => baseline w' i.1 = Some i.2) ids /\
  forall k, k ∉ ids.*1 ->
    RefresherData.chats (data w') !! k = RefresherData.chats (data alice_world) !! k.
Proof.
  apply (cycle_without_news_is_silent
           (chats_reply [c0_carol; c1_old; c2_dan]) alice_world
           [c0_carol; c1_old; c2_dan]
           [(AStr "c0", JStr "m9"); (AStr "c1", JStr "m1"); (AStr "c2", JStr "m5")]).
  - reported.
  - is_listed.
  - apply NoDup_ListNoDup. repeat constructor; cbn; intuition discriminate.
  - repeat constructor; by_running.
Defined.

Lemma second_cycle_changes_nothing_witness :
  let r := chats_reply [c0_carol; c1_bob; c2_dan] in
  let w' := (Refresher._do_refresh r alice_world).1 in
  Refresher._do_refresh r w' =
    (World (data w') (update_queue w') (stdout w')
           (posted w' ++ [Refresher.chats_query]), Ok tt).
Proof.
  apply (second_cycle_changes_nothing
           (chats_reply [c0_carol; c1_bob; c2_dan]) alice_world
           [c0_carol; c1_bob; c2_dan]
           [(AStr "c0", JStr "m9"); (AStr "c1", JStr "m2"); (AStr "c2", JStr "m5")]).
  - reported.
  - is_listed.
  - apply NoDup_ListNoDup. repeat constructor; cbn; intuition discriminate.
  - by_running.
Defined.


(** * Further properties of the bot *)

Section commands.
Import Bot.

Lemma split_from_blank word s :
  Forall (fun a => is_space a = true) (list_ascii_of_string s) ->
  split_from word s = if bool_decide (word = "") then [] else [word].
Proof.
  revert word. induction s as [|a s IH]; intros word; [done|].
  cbn [list_ascii_of_string split_from]. intros [Ha Hs]%Forall_cons.
  rewrite Ha. case_bool_decide; rewrite IH by done; done.
Qed.


End commands.

(** X9: a message without text, or with an empty text, is ignored; a text
    of nothing but whitespace makes the handler raise [IndexError] (its
    list of words is empty); the bot is the same in all three cases. *)
Theorem blank_messages (bot : Bot.t) (uid : Z) :
  Bot._on_message bot (Message.mk None uid) = (bot, Ok []) /\
  Bot._on_message bot (Message.mk (Some "") uid) = (bot, Ok []) /\
  forall text,
    text <> "" ->
    Forall (fun a => is_space a = true) (list_ascii_of_string text) ->
    Bot._on_message bot (Message.mk (Some text) uid) = (bot, Raise IndexError).
Proof.
  split; [done|]. split; [done|].
  intros text Hne Hblank. unfold Bot._on_message. cbn [Message.text].
  rewrite bool_decide_eq_false_2 by done.
  unfold split. by rewrite split_from_blank.
Qed.

Lemma blank_messages_witness :
  Bot._on_message alice_bot (Message.mk (Some "  ") 1001) = (alice_bot, Raise IndexError).
Proof.
  apply (proj2 (proj2 (blank_messages alice_bot 1001)) "  ").
  - discriminate.
  - repeat constructor.
Defined.



(** X11: a login from a chat that has a session already is dropped without
    an answer: the credential of the session is not replaced, no task is
    made and nothing is stored. *)
Theorem login_with_a_session_is_dropped
    (bot : Bot.t) (msg : Message.t) (text credential : string) (session : RefresherData.t) :
  Message.text msg = Some text ->
  split text = ["/login"; credential] ->
  Bot._refreshers bot !! Message.chat_id msg = Some session ->
  Bot._on_message bot msg = (bot, Ok []).
Proof.
  intros Htext Hsplit Hsession.
  rewrite (on_message_command bot msg text "/login" [credential]) by done.
  rewrite (bool_decide_eq_false_2 ("/login" = "/start")) by done.
  rewrite (bool_decide_eq_false_2 ("/login" = "/stop")) by done.
  rewrite bool_decide_eq_true_2 by done.
  unfold Bot.on_login. by rewrite Hsession.
Qed.

Lemma login_with_a_session_is_dropped_witness :
  Bot._on_message alice_bot (Message.mk (Some "/login other-token") 1001) = (alice_bot, Ok []).
Proof.
  apply (login_with_a_session_is_dropped alice_bot
           (Message.mk (Some "/login other-token") 1001)
           "/login other-token" "other-token" alice).
  - reflexivity.
  - by_running.
  - by_running.
Defined.

Section start_stop.
Import Bot.

Lemma set_running_same d : RefresherData.set_running d (RefresherData.running d) = d.
Proof. by destruct d. Qed.

Lemma set_refreshers_same bot : set_refreshers bot (_refreshers bot) = bot.
Proof. by destruct bot. Qed.

(** What a start does when the chat has a session. *)
Lemma on_message_start bot msg text rest session :
  Message.text msg = Some text ->
  split text = "/start" :: rest ->
  _refreshers bot !! Message.chat_id msg = Some session ->
  _on_message bot msg =
    (set_refreshers bot (<[Message.chat_id msg := RefresherData.set_running session true]>
                           (_refreshers bot)),
     Ok ["receiving messages"]).
Proof.
  intros Htext Hsplit Hsession.
  rewrite (on_message_command bot msg text "/start" rest) by done.
  rewrite bool_decide_eq_true_2 by done.
  rewrite !bool_decide_eq_false_2 by done.
  unfold on_start. rewrite Hsession.
  by destruct rest as [|? [|? ?]].
Qed.

(** What a stop does when the chat has a session. *)
Lemma on_message_stop bot msg text rest session :
  Message.text msg = Some text ->
  split text = "/stop" :: rest ->
  _refreshers bot !! Message.chat_id msg = Some session ->
  _on_message bot msg =
    (set_refreshers bot (<[Message.chat_id msg := RefresherData.set_running session false]>
                           (_refreshers bot)),
     Ok ["not receiving messages anymore"]).
Proof.
  intros Htext Hsplit Hsession.
  rewrite (on_message_command bot msg text "/stop" rest) by done.
  rewrite !bool_decide_eq_false_2 by done.
  rewrite bool_decide_eq_true_2 by done.
  assert (Hlogin : match "/stop" :: rest with
                   | [_; _] => (bot, @nil string)
                   | _ => (bot, [])
                   end = (bot, [])) by (by destruct rest as [|? [|? ?]]).
  rewrite Hlogin. unfold on_stop. by rewrite Hsession.
Qed.

End start_stop.

(** X12: a start from a chat whose session is running is answered and
    changes nothing; a stop followed by a start, from a chat whose session
    was running, gives back the bot as it was before the stop: the flag is
    all that the two commands write. *)
Theorem stop_then_start_restores_the_bot
    (bot : Bot.t) (stop start : Message.t) (text text' : string)
    (rest rest' : list string) (session : RefresherData.t) :
  Message.text stop = Some text -> split text = "/stop" :: rest ->
  Message.text start = Some text' -> split text' = "/start" :: rest' ->
  Message.chat_id start = Message.chat_id stop ->
  Bot._refreshers bot !! Message.chat_id stop = Some session ->
  RefresherData.running session = true ->
  Bot._on_message bot start = (bot, Ok ["receiving messages"]) /\
  Bot._on_message (Bot._on_message bot stop).1 start = (bot, Ok ["receiving messages"]).
Proof.
  intros Hstop Hsplit Hstart Hsplit' Hsame Hsession Hon.
  assert (Hsession' : Bot._refreshers bot !! Message.chat_id start = Some session)
    by (by rewrite Hsame).
  split.
  - rewrite (on_message_start bot start text' rest' session) by done.
    rewrite <- Hon, set_running_same, insert_id by done.
    by rewrite set_refreshers_same.
  - rewrite (on_message_stop bot stop text rest session) by done. cbn [fst].
    rewrite (on_message_start _ start text' rest'
               (RefresherData.set_running session false));
      [|done|done|by cbn; rewrite Hsame, lookup_insert_eq].
    cbn [Bot.set_refreshers Bot._refreshers Bot._db Bot._refresher_queue Bot._tasks].
    rewrite Hsame, insert_insert_eq.
    replace (RefresherData.set_running (RefresherData.set_running session false) true)
      with session by (by destruct session; cbn in *; subst).
    rewrite (insert_id _ _ _ Hsession). by destruct bot.
Qed.

Lemma stop_then_start_restores_the_bot_witness :
  Bot._on_message alice_bot start_alice = (alice_bot, Ok ["receiving messages"]) /\
  Bot._on_message (Bot._on_message alice_bot stop_alice).1 start_alice
    = (alice_bot, Ok ["receiving messages"]).
Proof.
  apply (stop_then_start_restores_the_bot alice_bot stop_alice start_alice
           "/stop" "/start" [] [] alice); try reflexivity; by_running.
Defined.



(** X14: what [__init__] makes of a shelf: without a dict of refreshers it
    stores an empty one and starts without sessions; with an empty one it
    starts without sessions; with a dict that holds anything it raises
    [TypeError] at the first value, and with something else than a dict
    [AttributeError]; so it never loads a session, and a bot that started
    starts again on its own shelf as it was. *)
Theorem init_never_loads_a_session (db : gmap string shelf_val) :
  Bot.__init__ db =
    match db !! "refreshers" with
    | None => Ok (Bot.mk (<["refreshers" := SDict ∅]> db) ∅ [] [])
    | Some (SDict items) =>
        if bool_decide (items = ∅) then Ok (Bot.mk db ∅ [] []) else Raise TypeError
    | Some (SData _) => Raise AttributeError
    end /\
  forall bot, Bot.__init__ db = Ok bot -> Bot.__init__ (Bot._db bot) = Ok bot.
Proof.
  assert (Hshape : Bot.__init__ db =
    match db !! "refreshers" with
    | None => Ok (Bot.mk (<["refreshers" := SDict ∅]> db) ∅ [] [])
    | Some (SDict items) =>
        if bool_decide (items = ∅) then Ok (Bot.mk db ∅ [] []) else Raise TypeError
    | Some (SData _) => Raise AttributeError
    end).
  { unfold Bot.__init__.
    destruct (db !! "refreshers") as [[items|d]|] eqn:Hdb.
    - rewrite bool_decide_eq_true_2 by eauto. rewrite Hdb.
      case_bool_decide as Hitems.
      + subst items. by rewrite map_to_list_empty.
      + destruct (map_to_list items) as [|[k v] l] eqn:Hl; [|done].
        by apply map_to_list_empty_iff in Hl.
    - rewrite bool_decide_eq_true_2 by eauto. by rewrite Hdb.
    - rewrite bool_decide_eq_false_2 by (by intros [? ?]).
      by rewrite lookup_insert_eq, map_to_list_empty. }
  split; [done|].
  intros bot Hbot.
  destruct (init_loads_nothing db bot Hbot) as (Hr & Hd & Hq & Ht).
  unfold Bot.__init__.
  rewrite bool_decide_eq_true_2 by eauto.
  rewrite Hd, map_to_list_empty. cbn. destruct bot; cbn in *. by subst.
Qed.

Lemma init_never_loads_a_session_witness :
  Bot.__init__ (Bot._db fresh_bot) = Ok fresh_bot.
Proof.
  apply (proj2 (init_never_loads_a_session ∅) fresh_bot).
  reflexivity.
Defined.

(** X15: the dispatcher takes the updates off the queue oldest first, one
    for each turn, whether or not the sending succeeds: after the turns
    [sent] the queue has lost its first [length sent] updates, and the
    messages that went out are, in the order of the queue, those of the
    updates whose sending returned; an update whose sending raised is
    neither sent again nor put back. *)
Theorem updates_are_delivered_in_order
    (repr : json -> string) (sent : list bool) (bot : Bot.t) :
  Bot._get_refresher_updates repr sent bot =
    (Bot.mk (Bot._db bot) (Bot._refreshers bot)
            (drop (length sent) (Bot._refresher_queue bot)) (Bot._tasks bot),
     concat (zip_with
               (fun (ok : bool) (u : update) =>
                  if ok then Bot._send_user_update repr u.1.1 u.1.2 u.2 else [])
               sent (Bot._refresher_queue bot))).
Proof.
  revert bot. induction sent as [|ok sent IH]; intros bot.
  { cbn. by destruct bot. }
  cbn [Bot._get_refresher_updates].
  destruct bot as [db refreshers queue tasks]. cbn [Bot._refresher_queue Bot._db
    Bot._refreshers Bot._tasks].
  destruct queue as [|[[uid upd_type] args] queue]; [done|].
  rewrite IH. cbn. done.
Qed.

(** * The whole program *)

Section program.
Import Bot.

(** What a message can do to the bot: nothing, write the flag of the
    session of its chat, or make the session of its chat. *)
Lemma on_message_cases bot msg :
  let uid := Message.chat_id msg in
  (_on_message bot msg).1 = bot \/
  (exists d b,
      _refreshers bot !! uid = Some d /\
      (_on_message bot msg).1 =
        set_refreshers bot (<[uid := RefresherData.set_running d b]> (_refreshers bot))) \/
  (exists credential,
      _refreshers bot !! uid = None /\
      (_on_message bot msg).1 =
        mk (<[str uid := SData (RefresherData.mk ∅ credential true uid JNone)]> (_db bot))
           (<[uid := RefresherData.mk ∅ credential true uid JNone]> (_refreshers bot))
           (_refresher_queue bot)
           (_tasks bot ++ [Run uid])).
Proof.
  intros uid. unfold _on_message.
  destruct (Message.text msg) as [text|]; [|by left].
  case_bool_decide; [by left|].
  destruct (split text) as [|cmd rest] eqn:Hsplit; [by left|].
  destruct (String.prefix "/" cmd); cbn [negb]; [|by left].
  fold uid.
  destruct (decide (cmd = "/start")) as [->|Hstart].
  { rewrite bool_decide_eq_true_2 by done.
    rewrite !bool_decide_eq_false_2 by done.
    unfold on_start.
    destruct (_refreshers bot !! uid) as [d|] eqn:Hd.
    - right; left. exists d, true. split; [done|]. by destruct rest as [|? [|? ?]].
    - left. by destruct rest as [|? [|? ?]]. }
  rewrite (bool_decide_eq_false_2 (cmd = "/start")) by done.
  destruct (decide (cmd = "/stop")) as [->|Hstop].
  { rewrite (bool_decide_eq_true_2 ("/stop" = "/stop")) by done.
    rewrite !bool_decide_eq_false_2 by done.
    unfold on_stop.
    destruct rest as [|? [|? ?]]; cbn;
      (destruct (_refreshers bot !! uid) as [d|] eqn:Hd;
       [right; left; by exists d, false | by left]). }
  rewrite (bool_decide_eq_false_2 (cmd = "/stop")) by done.
  destruct rest as [|credential [|? ?]]; [by left| |by left].
  case_bool_decide; [|by left].
  unfold on_login.
  destruct (_refreshers bot !! uid) as [d|] eqn:Hd; [by left|].
  right; right. by exists credential.
Qed.

Lemma keeps_sessions_refl s : keeps_sessions s s.
Proof. intros uid d Hd. exists d. auto. Qed.

Lemma keeps_sessions_same s s' :
  _refreshers (bot s') = _refreshers (bot s) -> keeps_sessions s s'.
Proof. intros Heq uid d Hd. exists d. rewrite Heq. auto. Qed.

Lemma keeps_sessions_trans s1 s2 s3 :
  keeps_sessions s1 s2 -> keeps_sessions s2 s3 -> keeps_sessions s1 s3.
Proof.
  intros H12 H23 uid d Hd.
  destruct (H12 uid d Hd) as (d' & Hd' & Ha & Hu & Hc).
  destruct (H23 uid d' Hd') as (d'' & Hd'' & Ha' & Hu' & Hc').
  exists d''. split; [done|]. split; [congruence|]. split; [congruence|]. auto.
Qed.

(** Writing over a session that is there does not change which chats have
    a session. *)
Lemma is_Some_insert_present {A} (m : gmap Z A) k x u :
  is_Some (m !! k) -> is_Some (<[k := x]> m !! u) <-> is_Some (m !! u).
Proof.
  intros Hk. destruct (decide (k = u)) as [->|Hne].
  - rewrite lookup_insert_eq. split; eauto.
  - by rewrite lookup_insert_ne.
Qed.

(** The bot with other data for the session of [uid], and more on the
    queue for it. *)
Lemma consistent_rewrite s uid d d' l ph out qs :
  consistent s ->
  _refreshers (bot s) !! uid = Some d ->
  RefresherData.update_data d' = RefresherData.update_data d ->
  Forall (fun u => u.1 = (RefresherData.update_data d, NEWMSG)) l ->
  consistent
    (System (mk (_db (bot s)) (<[uid := d']> (_refreshers (bot s)))
                (_refresher_queue (bot s) ++ l) (_tasks (bot s)))
            (<[uid := ph]> (phases s)) out qs (answers s) (notifications s)).
Proof.
  intros (Hdest & Hqueue & Hsent & (uids & Htasks & Hnodup & Huids) & Hphases & Hdb) Hd Hu Hl.
  assert (Hdom : forall u, is_Some (<[uid := d']> (_refreshers (bot s)) !! u)
                       <-> is_Some (_refreshers (bot s) !! u))
    by (intros u; apply is_Some_insert_present; eauto).
  unfold consistent. cbn [bot phases notifications _db _refreshers _refresher_queue _tasks].
  split; [|split; [|split; [|split; [|split; [|done]]]]].
  - intros u du. destruct (decide (uid = u)) as [->|Hne].
    + rewrite lookup_insert_eq. intros [= <-]. rewrite Hu. by apply Hdest.
    + rewrite lookup_insert_ne by done. apply Hdest.
  - intros u [Hold|Hnew]%elem_of_app.
    + destruct (Hqueue u Hold). split; [by apply Hdom | done].
    + apply (proj1 (Forall_forall _ _) Hl) in Hnew. rewrite Hnew. cbn.
      split; [|done]. rewrite (Hdest uid d Hd), lookup_insert_eq. eauto.
  - intros n Hn. apply Hdom. by apply Hsent.
  - exists uids. split; [done|]. split; [done|].
    intros u. rewrite Huids. symmetry. apply Hdom.
  - intros u. rewrite Hdom.
    rewrite <- Hphases. apply is_Some_insert_present. apply Hphases. eauto.
Qed.

Lemma tick_extends r w : extends w (Refresher.tick r w).1.
Proof.
  unfold Refresher.tick, gets, bind.
  destruct (RefresherData.running (data w)); [apply do_refresh_extends | apply extends_refl].
Qed.

Lemma refresher_step_consistent uid m s :
  (forall w, extends w (m w).1) ->
  consistent s ->
  consistent (refresher_step uid m s) /\ keeps_sessions s (refresher_step uid m s).
Proof.
  intros Hm Hs. unfold refresher_step.
  destruct (_refreshers (bot s) !! uid) as [d|] eqn:Hd;
    [|split; [done | apply keeps_sessions_refl]].
  specialize (Hm (World d (_refresher_queue (bot s)) (output s) (queries s))).
  destruct (m _) as [w res]. cbn [fst] in Hm.
  destruct Hm as (Ha & Hu & Hk & _ & l & Hq & Hl). cbn [data update_queue] in *.
  split.
  - rewrite Hq. by apply (consistent_rewrite s uid d).
  - intros u du Hdu. cbn [bot _refreshers].
    destruct (decide (uid = u)) as [->|Hne].
    + rewrite lookup_insert_eq. exists (data w).
      assert (du = d) as -> by congruence. auto.
    + rewrite lookup_insert_ne by done. exists du. auto.
Qed.

Lemma command_consistent repr msg s :
  consistent s ->
  consistent (step repr (Command msg) s) /\ keeps_sessions s (step repr (Command msg) s).
Proof.
  intros Hs. cbn [step].
  pose proof (on_message_cases (bot s) msg) as Hcases. cbn zeta in Hcases.
  destruct (_on_message (bot s) msg) as [bot' res]. cbn [fst] in Hcases.
  set (uid := Message.chat_id msg) in *.
  destruct Hcases as [-> | [(d & b & Hd & ->) | (credential & Hnone & ->)]].
  - (* nothing *)
    assert (Hphases : (if bool_decide (is_Some (_refreshers (bot s) !! uid)) then phases s
                       else if bool_decide (is_Some (_refreshers (bot s) !! uid))
                            then <[uid := Starting]> (phases s) else phases s) = phases s)
      by (by case_bool_decide).
    rewrite Hphases. split; [|by apply keeps_sessions_same].
    exact Hs.
  - (* the flag *)
    rewrite bool_decide_eq_true_2 by eauto.
    split.
    + pose proof (consistent_rewrite s uid d (RefresherData.set_running d b) []
                    (default Starting (phases s !! uid)) (output s) (queries s)
                    Hs Hd eq_refl (Forall_nil_2 _)) as Hnew.
      rewrite app_nil_r in Hnew.
      destruct Hs as (_ & _ & _ & _ & Hphases & _).
      destruct (proj2 (Hphases uid)) as [ph Hph]; [eauto|].
      rewrite Hph in Hnew. cbn [default] in Hnew. rewrite (insert_id _ _ _ Hph) in Hnew.
      exact Hnew.
    + intros u du Hdu. cbn [bot set_refreshers _refreshers].
      destruct (decide (uid = u)) as [->|Hne].
      * rewrite lookup_insert_eq. exists (RefresherData.set_running d b).
        assert (du = d) as -> by congruence. auto.
      * rewrite lookup_insert_ne by done. exists du. auto.
  - (* a login *)
    rewrite bool_decide_eq_false_2 by (rewrite Hnone; by intros [? ?]).
    rewrite bool_decide_eq_true_2 by (cbn; rewrite lookup_insert_eq; eauto).
    destruct Hs as (Hdest & Hqueue & Hsent & (uids & Htasks & Hnodup & Huids) & Hphases & Hdb).
    assert (Hgrow : forall u, is_Some (_refreshers (bot s) !! u) ->
              is_Some (<[uid := RefresherData.mk ∅ credential true uid JNone]>
                         (_refreshers (bot s)) !! u)).
    { intros u Hu. destruct (decide (uid = u)) as [->|Hne].
      - rewrite lookup_insert_eq. eauto.
      - by rewrite lookup_insert_ne. }
    split.
    + unfold consistent.
      cbn [bot phases notifications _db _refreshers _refresher_queue _tasks].
      split; [|split; [|split; [|split; [|split]]]].
      * intros u du. destruct (decide (uid = u)) as [->|Hne].
        -- rewrite lookup_insert_eq. by intros [= <-].
        -- rewrite lookup_insert_ne by done. apply Hdest.
      * intros u Hu. destruct (Hqueue u Hu). auto.
      * intros n Hn. auto.
      * exists (uids ++ [uid])%list.
        split; [by rewrite Htasks, map_app, <- !app_assoc|].
        split.
        -- apply NoDup_app. split; [done|]. split; [|apply NoDup_singleton].
           intros u Hu ->%list_elem_of_singleton.
           apply Huids in Hu. rewrite Hnone in Hu. by destruct Hu.
        -- intros u. rewrite elem_of_app, list_elem_of_singleton, Huids.
           destruct (decide (uid = u)) as [->|Hne].
           ++ rewrite lookup_insert_eq. split; eauto.
           ++ rewrite lookup_insert_ne by done. split; [intros [?| ->]|]; auto. done.
      * intros u. destruct (decide (uid = u)) as [->|Hne].
        -- rewrite !lookup_insert_eq. split; eauto.
        -- rewrite !lookup_insert_ne by done. apply Hphases.
      * rewrite lookup_insert_ne; [done | apply str_not_refreshers].
    + intros u du Hdu. cbn [bot _refreshers].
      rewrite lookup_insert_ne by congruence. exists du. auto.
Qed.

Lemma delivery_consistent repr ok s :
  consistent s ->
  consistent (step repr (Delivery ok) s) /\ keeps_sessions s (step repr (Delivery ok) s).
Proof.
  cbn [step _get_refresher_updates].
  destruct (_refresher_queue (bot s)) as [|[[uid upd_type] args] queue] eqn:Hq; intros Hs.
  { cbn [app]. rewrite app_nil_r. split; [exact Hs | by apply keeps_sessions_same]. }
  destruct Hs as (Hdest & Hqueue & Hsent & Htasks & Hphases & Hdb). rewrite Hq in Hqueue.
  split; [|intros u du Hdu; exists du; auto].
  unfold consistent.
  cbn [bot phases notifications _db _refreshers _refresher_queue _tasks].
  split; [done|]. split; [|split; [|done]].
  - intros u Hu. apply Hqueue. by right.
  - intros n [Hn|Hn]%elem_of_app; [auto|].
    assert (Hn' : n.1 = uid).
    { rewrite app_nil_r in Hn. unfold _send_user_update in Hn.
      destruct ok; [|by apply elem_of_nil in Hn].
      destruct (upd_type =? NEWMSG), args; [|by apply elem_of_nil in Hn].
      by apply list_elem_of_singleton in Hn as ->. }
    rewrite Hn'. apply (Hqueue (uid, upd_type, args)). by left.
Qed.

Lemma step_consistent repr h s :
  consistent s -> consistent (step repr h s) /\ keeps_sessions s (step repr h s).
Proof.
  intros Hs. destruct h as [msg|uid r|uid r|ok].
  - by apply command_consistent.
  - cbn [step]. destruct (phases s !! uid) as [[]|];
      try (split; [done | apply keeps_sessions_refl]).
    apply refresher_step_consistent; [apply resolve_self_id_extends | done].
  - cbn [step]. destruct (phases s !! uid) as [[]|];
      try (split; [done | apply keeps_sessions_refl]).
    apply refresher_step_consistent; [apply tick_extends | done].
  - by apply delivery_consistent.
Qed.

Lemma steps_consistent repr hs s :
  consistent s -> consistent (steps repr hs s) /\ keeps_sessions s (steps repr hs s).
Proof.
  revert s. induction hs as [|h hs IH]; intros s Hs.
  { split; [done | apply keeps_sessions_refl]. }
  destruct (step_consistent repr h s Hs) as [Hs1 Hk1].
  destruct (IH _ Hs1) as [Hs2 Hk2].
  split; [done|]. by eapply keeps_sessions_trans.
Qed.

Lemma boot_consistent db s : boot db = Ok s -> consistent s.
Proof.
  unfold boot. destruct (__init__ db) as [b|] eqn:Hb; [|done].
  intros [= <-]. destruct (init_loads_nothing db b Hb) as (Hr & Hd & Hq & Ht).
  unfold consistent, run.
  cbn [bot phases notifications _db _refreshers _refresher_queue _tasks].
  rewrite Hr, Hq, Ht, map_to_list_empty, fmap_empty.
  split; [by intros u d; rewrite lookup_empty|].
  split; [by intros u ?%elem_of_nil|]. split; [by intros u ?%elem_of_nil|].
  split; [|split; [|done]].
  - exists []. split; [done|]. split; [apply NoDup_nil_2|].
    intros u. rewrite lookup_empty. split; [by intros ?%elem_of_nil | by intros [? ?]].
  - intros u. by rewrite !lookup_empty.
Qed.

End program.

Example bob_story_ends_with_a_notification :
  exists s0,
    boot ∅ = Ok s0 /\
    notifications (steps (fun _ => "") bob_story s0)
      = [(42, "Bob:" ++ Bot.newline ++ Bot.newline ++ "hi")] /\
    Bot._refresher_queue (bot (steps (fun _ => "") bob_story s0)) = [].
Proof. eexists. split; [reflexivity|]. split; by_running. Qed.

(** X16: the program only notifies chats that have logged in: whatever
    happens after the start, every session is filed under the chat it
    notifies, every update on the queue is a new-message update for a chat
    that has a session, and so is every notification that was sent. *)
Theorem notifications_go_to_logged_in_chats
    (repr : json -> string) (db : gmap string shelf_val) (s0 : system)
    (hs : list happening) :
  boot db = Ok s0 ->
  let s := steps repr hs s0 in
  (forall uid d, Bot._refreshers (bot s) !! uid = Some d ->
                 RefresherData.update_data d = uid) /\
  (forall u, u ∈ Bot._refresher_queue (bot s) ->
             is_Some (Bot._refreshers (bot s) !! u.1.1) /\ u.1.2 = NEWMSG) /\
  (forall n, n ∈ notifications s -> is_Some (Bot._refreshers (bot s) !! n.1)).
Proof.
  intros Hboot s.
  destruct (steps_consistent repr hs s0 (boot_consistent db s0 Hboot))
    as ((H1 & H2 & H3 & _) & _).
  auto.
Qed.

Lemma notifications_go_to_logged_in_chats_witness :
  let s := steps (fun _ => "") bob_story
             (System (Bot.run fresh_bot) ∅ [] [] [] []) in
  (forall uid d, Bot._refreshers (bot s) !! uid = Some d ->
                 RefresherData.update_data d = uid) /\
  (forall u, u ∈ Bot._refresher_queue (bot s) ->
             is_Some (Bot._refreshers (bot s) !! u.1.1) /\ u.1.2 = NEWMSG) /\
  (forall n, n ∈ notifications s -> is_Some (Bot._refreshers (bot s) !! n.1)).
Proof.
  apply (notifications_go_to_logged_in_chats (fun _ => "") ∅
           (System (Bot.run fresh_bot) ∅ [] [] [] []) bob_story).
  reflexivity.
Defined.

(** X17: no chat ever gets a second refresher: whatever happens after the
    start, the tasks are the dispatcher, the flush of the shelf and one run
    for each chat that has a session, no chat twice, and the dict stored
    under ['refreshers'] is still empty. *)
Theorem one_refresher_for_each_session
    (repr : json -> string) (db : gmap string shelf_val) (s0 : system)
    (hs : list happening) :
  boot db = Ok s0 ->
  let s := steps repr hs s0 in
  (exists uids,
      Bot._tasks (bot s) = ([Bot.GetRefresherUpdates; Bot.SyncDb] ++ map Bot.Run uids)%list /\
      NoDup uids /\
      forall uid, uid ∈ uids <-> is_Some (Bot._refreshers (bot s) !! uid)) /\
  Bot._db (bot s) !! "refreshers" = Some (SDict ∅).
Proof.
  intros Hboot s.
  destruct (steps_consistent repr hs s0 (boot_consistent db s0 Hboot))
    as ((_ & _ & _ & H4 & _ & H6) & _).
  auto.
Qed.

Lemma one_refresher_for_each_session_witness :
  let s := steps (fun _ => "") (bob_story ++ [Command login_bob])
             (System (Bot.run fresh_bot) ∅ [] [] [] []) in
  (exists uids,
      Bot._tasks (bot s) = ([Bot.GetRefresherUpdates; Bot.SyncDb] ++ map Bot.Run uids)%list /\
      NoDup uids /\
      forall uid, uid ∈ uids <-> is_Some (Bot._refreshers (bot s) !! uid)) /\
  Bot._db (bot s) !! "refreshers" = Some (SDict ∅).
Proof.
  apply (one_refresher_for_each_session (fun _ => "") ∅
           (System (Bot.run fresh_bot) ∅ [] [] [] []) (bob_story ++ [Command login_bob])).
  reflexivity.
Defined.

(** X18: a session is for ever: once a chat has a session, whatever happens
    later it still has one, with the same credential and destination and
    with every chat it had filed; nothing logs a chat out and nothing
    replaces its credential. *)
Theorem sessions_are_never_dropped
    (repr : json -> string) (db : gmap string shelf_val) (s0 : system)
    (hs later : list happening) :
  boot db = Ok s0 ->
  keeps_sessions (steps repr hs s0) (steps repr (hs ++ later) s0).
Proof.
  intros Hboot. unfold steps. rewrite fold_left_app.
  destruct (steps_consistent repr hs s0 (boot_consistent db s0 Hboot)) as [Hs _].
  by destruct (steps_consistent repr later _ Hs) as [_ Hk].
Qed.

Lemma sessions_are_never_dropped_witness :
  keeps_sessions
    (steps (fun _ => "") bob_story (System (Bot.run fresh_bot) ∅ [] [] [] []))
    (steps (fun _ => "") (bob_story ++ [Command (Message.mk (Some "/login x") 42);
                                        Command stop_bob])
           (System (Bot.run fresh_bot) ∅ [] [] [] [])).
Proof.
  apply (sessions_are_never_dropped (fun _ => "") ∅).
  reflexivity.
Defined.

Section ended.
Import Bot.

Lemma for_chat_others uid d l :
  RefresherData.update_data d <> uid ->
  Forall (fun u : update => u.1 = (RefresherData.update_data d, NEWMSG)) l ->
  for_chat uid l = [].
Proof.
  intros Hne Hl. unfold for_chat.
  induction Hl as [|u l Hu _ IH]; [done|].
  rewrite filter_cons_False; [done|]. rewrite Hu. cbn. done.
Qed.

Lemma for_chat_app uid q1 q2 :
  for_chat uid (q1 ++ q2) = (for_chat uid q1 ++ for_chat uid q2)%list.
Proof. unfold for_chat. apply filter_app. Qed.

Lemma ended_refresher_step uid d q u m s :
  u <> uid ->
  (forall w, extends w (m w).1) ->
  consistent s -> ended_with uid d q s -> ended_with uid d q (refresher_step u m s).
Proof.
  intros Hne Hm Hs Hended. pose proof Hended as (Hphase & (b & Hd) & Hq).
  unfold refresher_step.
  destruct (_refreshers (bot s) !! u) as [du|] eqn:Hdu; [|done].
  specialize (Hm (World du (_refresher_queue (bot s)) (output s) (queries s))).
  destruct (m _) as [w res]. cbn [fst] in Hm.
  destruct Hm as (_ & _ & _ & _ & l & Hl & Hall). cbn [data update_queue] in *.
  destruct Hs as (Hdest & _).
  unfold ended_with. cbn [bot phases _refreshers _refresher_queue].
  rewrite !lookup_insert_ne by done.
  split; [done|]. split; [by exists b|].
  assert (Hnone : for_chat uid l = []).
  { apply (for_chat_others uid du); [|done]. by rewrite (Hdest u du Hdu). }
  rewrite Hl, for_chat_app, Hnone, app_nil_r. done.
Qed.

Lemma ended_step repr uid d q h s :
  consistent s -> ended_with uid d q s -> ended_with uid d q (step repr h s).
Proof.
  intros Hs Hended. pose proof Hended as (Hphase & (b & Hd) & Hq).
  destruct h as [msg|u r|u r|ok].
  - (* a command *)
    cbn [step].
    pose proof (on_message_cases (bot s) msg) as Hcases. cbn zeta in Hcases.
    destruct (_on_message (bot s) msg) as [bot' res]. cbn [fst] in Hcases.
    set (chat := Message.chat_id msg) in *.
    unfold ended_with. cbn [phases bot].
    assert (Hphases :
      (if bool_decide (is_Some (_refreshers (bot s) !! chat)) then phases s
       else if bool_decide (is_Some (_refreshers bot' !! chat))
            then <[chat := Starting]> (phases s) else phases s) !! uid = Some Ended).
    { destruct (decide (chat = uid)) as [->|Hne].
      - by rewrite bool_decide_eq_true_2 by eauto.
      - repeat case_bool_decide; rewrite ?lookup_insert_ne by done; done. }
    split; [done|].
    destruct Hcases as [-> | [(dc & bc & Hdc & ->) | (credential & Hnone & ->)]].
    + split; [by exists b | done].
    + cbn [set_refreshers _refreshers _refresher_queue]. split; [|done].
      destruct (decide (chat = uid)) as [->|Hne].
      * rewrite lookup_insert_eq. exists bc.
        assert (dc = RefresherData.set_running d b) as -> by congruence. done.
      * rewrite lookup_insert_ne by done. by exists b.
    + cbn [_refreshers _refresher_queue]. split; [|done].
      rewrite lookup_insert_ne by congruence. by exists b.
  - (* the start of a run *)
    cbn [step]. destruct (decide (u = uid)) as [->|Hne]; [by rewrite Hphase|].
    destruct (phases s !! u) as [[]|]; try done.
    apply ended_refresher_step; [done | apply resolve_self_id_extends | done | done].
  - (* a tick *)
    cbn [step]. destruct (decide (u = uid)) as [->|Hne]; [by rewrite Hphase|].
    destruct (phases s !! u) as [[]|]; try done.
    apply ended_refresher_step; [done | apply tick_extends | done | done].
  - (* the dispatcher *)
    cbn [step _get_refresher_updates].
    destruct (_refresher_queue (bot s)) as [|[[dest upd_type] args] queue] eqn:Hqueue.
    { unfold ended_with. cbn [bot phases]. rewrite Hqueue. split; [done|]. split; [by exists b|done]. }
    unfold ended_with. cbn [bot phases _refreshers _refresher_queue].
    split; [done|]. split; [by exists b|].
    etrans; [|exact Hq]. unfold for_chat.
    destruct (decide (dest = uid)) as [->|Hne].
    + rewrite (filter_cons_True _ (uid, upd_type, args)) by done. by apply suffix_cons_r.
    + by rewrite (filter_cons_False _ (dest, upd_type, args)).
Qed.

Lemma ended_steps repr uid d q hs s :
  consistent s -> ended_with uid d q s -> ended_with uid d q (steps repr hs s).
Proof.
  revert s. induction hs as [|h hs IH]; intros s Hs Hended; [done|].
  apply IH; [by apply step_consistent | by apply ended_step].
Qed.

End ended.

(** X19: a refresher that has ended is never started again: once the task
    of a chat has left its loop with an exception, whatever happens later
    (commands of any chat, further ticks, deliveries) it stays ended, the
    data of its session changes in the running flag at most, and no update
    for the chat is added to the queue; a start command is still answered
    "receiving messages". *)
Theorem ended_refresher_is_never_restarted
    (repr : json -> string) (db : gmap string shelf_val) (s0 : system)
    (hs later : list happening) (uid : Z) (d : RefresherData.t) :
  boot db = Ok s0 ->
  let s := steps repr hs s0 in
  phases s !! uid = Some Ended ->
  Bot._refreshers (bot s) !! uid = Some d ->
  ended_with uid d (Bot._refresher_queue (bot s)) (steps repr (hs ++ later) s0) /\
  forall text rest,
    split text = "/start" :: rest ->
    (Bot._on_message (bot (steps repr (hs ++ later) s0)) (Message.mk (Some text) uid)).2
      = Ok ["receiving messages"].
Proof.
  intros Hboot s Hphase Hd.
  assert (Hs : consistent s) by (apply steps_consistent; by eapply boot_consistent).
  assert (Hended : ended_with uid d (Bot._refresher_queue (bot s))
                     (steps repr (hs ++ later) s0)).
  { unfold steps. rewrite fold_left_app. apply ended_steps; [done|].
    split; [done|]. split; [|done].
    exists (RefresherData.running d). by rewrite set_running_same. }
  split; [done|].
  intros text rest Hsplit.
  destruct Hended as (_ & (b & Hd') & _).
  by rewrite (on_message_start _ (Message.mk (Some text) uid) text rest
                (RefresherData.set_running d b)).
Qed.

Lemma ended_refresher_is_never_restarted_witness :
  let s := steps (fun _ => "") bob_accident (System (Bot.run fresh_bot) ∅ [] [] [] []) in
  let later := [Command (Message.mk (Some "/start") 42);
                Timer 42 (chats_reply [c1_bob]);
                Command (Message.mk (Some "/login bob-token") 42);
                Delivery true] in
  ended_with 42
    (RefresherData.mk {[AStr "c1" := Chat.mk (AStr "c1") (JStr "m1")]}
                      "bob-token" true 42 (JStr "u-robert"))
    (Bot._refresher_queue (bot s))
    (steps (fun _ => "") (bob_accident ++ later)
           (System (Bot.run fresh_bot) ∅ [] [] [] [])) /\
  forall text rest,
    split text = "/start" :: rest ->
    (Bot._on_message
       (bot (steps (fun _ => "") (bob_accident ++ later)
                   (System (Bot.run fresh_bot) ∅ [] [] [] [])))
       (Message.mk (Some text) 42)).2
      = Ok ["receiving messages"].
Proof.
  apply (ended_refresher_is_never_restarted (fun _ => "") ∅
           (System (Bot.run fresh_bot) ∅ [] [] [] []) bob_accident).
  - reflexivity.
  - by_running.
  - by_running.
Defined.




